(** * Todo management system: ownership, authorization and ordering

    A shallow embedding of the Express route handlers of the todos
    router ([backend/src/routes/todos.ts]) and of the files router
    (mounted at [/api/files]) over an explicit model of the Prisma
    tables (users, todos, files) and of the upload directory on disk.
    Every handler is a function from the state before the request to
    the response and the state after it.  Identifiers and the clock are
    inputs; the caller is the user [authenticateToken] has put in
    [req.user]. *)

From Stdlib Require Import ZArith Ascii String.
From stdpp Require Import prelude strings list gmap sorting.

Open Scope string_scope.
Open Scope Z_scope.

(** ** Data model (the rows of the three tables) *)

Inductive Role := USER | ADMIN.
Inductive UserStatus := ACTIVE | DISABLED.
Inductive TodoStatus := PENDING | IN_PROGRESS | COMPLETED.

(** [new Date(s)]: the date a request string denotes. *)
Inductive Date := new_Date (s : string).

#[global] Instance Role_eq_dec : EqDecision Role.
Proof. solve_decision. Defined.
#[global] Instance UserStatus_eq_dec : EqDecision UserStatus.
Proof. solve_decision. Defined.
#[global] Instance TodoStatus_eq_dec : EqDecision TodoStatus.
Proof. solve_decision. Defined.
#[global] Instance Date_eq_dec : EqDecision Date.
Proof. solve_decision. Defined.

Module User.
Record t := mk {
  id : string;
  name : string;
  email : string;
  role : Role;
  status : UserStatus;
  profilePicture : option string
}.
End User.

Module Todo.
Record t := mk {
  id : string;
  title : string;
  description : option string;
  status : TodoStatus;
  dueDate : option Date;
  order : Z;
  createdAt : Z;
  updatedAt : Z;
  createdById : string;
  assignedToId : string
}.
End Todo.

Module File.
Record t := mk {
  id : string;
  filename : string;
  originalName : string;
  path : string;
  size : Z;
  mimeType : string;
  createdAt : Z;
  todoId : string
}.
End File.

#[global] Instance User_eq_dec : EqDecision User.t.
Proof. solve_decision. Defined.
#[global] Instance Todo_eq_dec : EqDecision Todo.t.
Proof. solve_decision. Defined.
#[global] Instance File_eq_dec : EqDecision File.t.
Proof. solve_decision. Defined.

(** The database behind [prisma]. *)
Record DB := mkDB {
  users : list User.t;
  todos : list Todo.t;
  files : list File.t
}.

(** The upload directory [uploads/todos]: stored file name to content. *)
Abbreviation Disk := (gmap string string).

(** [id] is the primary key of each table; the properties below that
    depend on it assume [NoDup] of the ids of the table they read. *)

(** ** Strings: [toLowerCase] and substring search *)

Definition ascii_toLowerCase (c : ascii) : ascii :=
  let n := nat_of_ascii c in
  if (Nat.leb 65 n && Nat.leb n 90)%bool then ascii_of_nat (n + 32) else c.

Fixpoint toLowerCase (s : string) : string :=
  match s with
  | EmptyString => EmptyString
  | String c s' => String (ascii_toLowerCase c) (toLowerCase s')
  end.

(** [s.includes(sub)] *)
Fixpoint includes (s sub : string) : bool :=
  String.prefix sub s ||
  match s with
  | EmptyString => false
  | String _ s' => includes s' sub
  end.

(** Prisma's [{ contains: sub, mode: 'insensitive' }], for a search text
    of ASCII letters, digits and spaces: the database folds case by its
    collation and reads [%], [_] and the backslash of a search text as
    pattern characters, which this substring test does not. *)
Definition contains_insensitive (s sub : string) : bool :=
  includes (toLowerCase s) (toLowerCase sub).

(** ** Prisma queries on the todo table *)

Module TodoWhere.
(** The members of an [OR: [...]] array as the routes write them. *)
Inductive cond :=
| assignedToId_is (userId : string)
| createdById_is (userId : string)
| title_contains (search : string)
| description_contains (search : string).

(** A [where] object: an absent key puts no constraint, the keys
    present are conjoined, and assigning a key replaces its value. *)
Record t := mk {
  id : option string;
  id_in : option (list string);
  assignedToId : option string;
  createdById : option string;
  status : option TodoStatus;
  OR : option (list cond)
}.

Definition empty : t := mk None None None None None None.

Definition set_id (v : string) (w : t) : t :=
  mk (Some v) (id_in w) (assignedToId w) (createdById w) (status w) (OR w).
Definition set_id_in (v : list string) (w : t) : t :=
  mk (id w) (Some v) (assignedToId w) (createdById w) (status w) (OR w).
Definition set_assignedToId (v : string) (w : t) : t :=
  mk (id w) (id_in w) (Some v) (createdById w) (status w) (OR w).
Definition set_createdById (v : string) (w : t) : t :=
  mk (id w) (id_in w) (assignedToId w) (Some v) (status w) (OR w).
Definition set_status (v : TodoStatus) (w : t) : t :=
  mk (id w) (id_in w) (assignedToId w) (createdById w) (Some v) (OR w).
Definition set_OR (v : list cond) (w : t) : t :=
  mk (id w) (id_in w) (assignedToId w) (createdById w) (status w) (Some v).

Definition holds (c : cond) (row : Todo.t) : bool :=
  match c with
  | assignedToId_is u => bool_decide (Todo.assignedToId row = u)
  | createdById_is u => bool_decide (Todo.createdById row = u)
  | title_contains s => contains_insensitive (Todo.title row) s
  | description_contains s =>
      match Todo.description row with
      | Some d => contains_insensitive d s
      | None => false
      end
  end.

Definition key {A} (k : option A) (p : A → bool) : bool :=
  match k with Some v => p v | None => true end.

Definition matches (w : t) (row : Todo.t) : bool :=
  key (id w) (λ v, bool_decide (Todo.id row = v)) &&
  key (id_in w) (λ vs, bool_decide (Todo.id row ∈ vs)) &&
  key (assignedToId w) (λ v, bool_decide (Todo.assignedToId row = v)) &&
  key (createdById w) (λ v, bool_decide (Todo.createdById row = v)) &&
  key (status w) (λ v, bool_decide (Todo.status row = v)) &&
  key (OR w) (λ cs, existsb (λ c, holds c row) cs).
End TodoWhere.

(** [OR: [{ assignedToId: userId }, { createdById: userId }]], the
    clause every todo and file route puts in its query. *)
Definition accessOR (userId : string) : list TodoWhere.cond :=
  [TodoWhere.assignedToId_is userId; TodoWhere.createdById_is userId].

(** The access predicate: the row passes the clause above. *)
Definition canAccess (user : User.t) (todo : Todo.t) : bool :=
  TodoWhere.matches (TodoWhere.set_OR (accessOR (User.id user)) TodoWhere.empty) todo.

Definition todo_findMany (db : DB) (w : TodoWhere.t) : list Todo.t :=
  filter (λ row, TodoWhere.matches w row = true) (todos db).

Definition todo_findFirst (db : DB) (w : TodoWhere.t) : option Todo.t :=
  head (todo_findMany db w).

Definition user_findUnique (db : DB) (id : string) : option User.t :=
  head (filter (λ u, User.id u = id) (users db)).

(** ** Responses *)

Record UserSummary := mkSummary {
  sum_id : string;
  sum_name : string;
  sum_email : string;
  sum_profilePicture : option string
}.

(** A todo with its [include]d relations.  The [select] lists of the
    routes are not modelled: a related user is given by its summary
    columns, a related file by its row. *)
Record TodoWithRelations := mkRel {
  rel_todo : Todo.t;
  rel_createdBy : option UserSummary;
  rel_assignedTo : option UserSummary;
  rel_files : list File.t
}.

Definition summary (u : User.t) : UserSummary :=
  mkSummary (User.id u) (User.name u) (User.email u) (User.profilePicture u).

Definition include (db : DB) (row : Todo.t) : TodoWithRelations :=
  mkRel row
    (summary <$> user_findUnique db (Todo.createdById row))
    (summary <$> user_findUnique db (Todo.assignedToId row))
    (filter (λ f, File.todoId f = Todo.id row) (files db)).

Inductive Body :=
| b_error (error : string)
| b_message (message : string)
| b_todo (todo : TodoWithRelations)
| b_todos (todos : list TodoWithRelations)
| b_message_todo (message : string) (todo : TodoWithRelations)
| b_message_files (message : string) (files : list File.t).

Inductive Response :=
| json (status : Z) (body : Body)
| attachment (originalName mimeType content : string)
| next (error : string).

(** ** GET /todos/:id *)

Definition get_todo (db : DB) (user : User.t) (id : string) : Response :=
  let userId := User.id user in
  match todo_findFirst db
          (TodoWhere.set_OR (accessOR userId) (TodoWhere.set_id id TodoWhere.empty)) with
  | None => json 404 (b_error "Todo not found or access denied")
  | Some todo => json 200 (b_todo (include db todo))
  end.

(** ** GET /todos *)

Definition parseStatus (s : string) : option TodoStatus :=
  if decide (s = "PENDING") then Some PENDING
  else if decide (s = "IN_PROGRESS") then Some IN_PROGRESS
  else if decide (s = "COMPLETED") then Some COMPLETED
  else None.

(** JavaScript truthiness of an optional string: [undefined] and the
    empty string are falsy. *)
Definition truthy (v : option string) : option string :=
  match v with
  | Some EmptyString => None
  | _ => v
  end.

(** [req.query] of the list route. *)
Record ListQuery := mkQuery {
  q_type : option string;
  q_status : option string;
  q_search : option string
}.

Definition list_whereClause (userId : string) (q : ListQuery) : TodoWhere.t :=
  let whereClause := TodoWhere.empty in
  let whereClause :=
    if decide (q_type q = Some "assigned") then
      TodoWhere.set_assignedToId userId whereClause
    else if decide (q_type q = Some "created") then
      TodoWhere.set_createdById userId whereClause
    else
      TodoWhere.set_OR (accessOR userId) whereClause in
  let whereClause :=
    match truthy (q_status q) with
    | Some status =>
        match parseStatus status with
        | Some st => TodoWhere.set_status st whereClause
        | None => whereClause
        end
    | None => whereClause
    end in
  let whereClause :=
    match truthy (q_search q) with
    | Some search =>
        TodoWhere.set_OR
          [TodoWhere.title_contains search; TodoWhere.description_contains search]
          whereClause
    | None => whereClause
    end in
  whereClause.

(** [orderBy: [{ order: 'asc' }, { createdAt: 'desc' }]] *)
Definition orderBy (a b : Todo.t) : Prop :=
  Todo.order a < Todo.order b ∨
  (Todo.order a = Todo.order b ∧ Todo.createdAt b ≤ Todo.createdAt a).

#[global] Instance orderBy_dec a b : Decision (orderBy a b).
Proof. unfold orderBy. apply _. Defined.

(** The rows the list route selects, in response order. *)
Definition list_rows (db : DB) (user : User.t) (q : ListQuery) : list Todo.t :=
  merge_sort orderBy (todo_findMany db (list_whereClause (User.id user) q)).

Definition list_todos (db : DB) (user : User.t) (q : ListQuery) : Response :=
  json 200 (b_todos (include db <$> list_rows db user q)).

(** ** Writes *)

(** What the routes draw from their environment: the clock and the
    identifiers Prisma generates for new rows. *)
Record Env := mkEnv {
  now : Z;
  uuid : nat → string
}.

Inductive ReferentialAction := Cascade | Restrict.

(** The parts of [prisma/schema.prisma] the routes rely on.  The
    routes do not fix them, so they are parameters: the column defaults
    of a new todo, whether [updatedAt] carries [@updatedAt], and the
    action of the file-to-todo relation when the todo is deleted. *)
Record Schema := mkSchema {
  default_status : TodoStatus;
  default_order : Z;
  updatedAt_auto : bool;
  file_todo_onDelete : ReferentialAction
}.

(** The range of the [order] column, a 32-bit integer. *)
Definition int4 (n : Z) : Prop := -2147483648 ≤ n ≤ 2147483647.

#[global] Instance int4_dec n : Decision (int4 n).
Proof. unfold int4. apply _. Defined.

(** The [data] object of [prisma.todo.update]. *)
Module TodoData.
Record t := mk {
  title : option string;
  description : option string;
  status : option string;
  dueDate : option (option Date);
  order : option Z;
  assignedToId : option string
}.

Definition empty : t := mk None None None None None None.

(** Only the keys present are written; a status outside the enum and
    an order outside the range of its column are rejected: the update
    throws and writes nothing. *)
Definition apply (sch : Schema) (d : t) (now : Z) (row : Todo.t) : option Todo.t :=
  match match status d with
        | Some s => parseStatus s
        | None => Some (Todo.status row)
        end,
        match order d with
        | Some o => if decide (int4 o) then Some o else None
        | None => Some (Todo.order row)
        end with
  | Some st, Some o =>
      Some (Todo.mk
        (Todo.id row)
        (default (Todo.title row) (title d))
        (match description d with Some s => Some s | None => Todo.description row end)
        st
        (default (Todo.dueDate row) (dueDate d))
        o
        (Todo.createdAt row)
        (if updatedAt_auto sch then now else Todo.updatedAt row)
        (Todo.createdById row)
        (default (Todo.assignedToId row) (assignedToId d)))
  | _, _ => None
  end.
End TodoData.

Definition set_todos (db : DB) (rows : list Todo.t) : DB :=
  mkDB (users db) rows (files db).

Definition set_files (db : DB) (rows : list File.t) : DB :=
  mkDB (users db) (todos db) rows.

(** [prisma.todo.update({ where: { id }, data })]; [None] when the
    client throws (no such row, or invalid data). *)
Definition todo_update (sch : Schema) (env : Env) (db : DB) (id : string)
    (data : TodoData.t) : option DB :=
  match todo_findFirst db (TodoWhere.set_id id TodoWhere.empty) with
  | None => None
  | Some _ =>
      rows ← mapM (λ row, if decide (Todo.id row = id)
                          then TodoData.apply sch data (now env) row
                          else Some row) (todos db);
      Some (set_todos db rows)
  end.

(** [prisma.$transaction(updates)]: all updates in order, or none. *)
Fixpoint transaction (sch : Schema) (env : Env) (db : DB)
    (updates : list (string * TodoData.t)) : option DB :=
  match updates with
  | [] => Some db
  | (id, data) :: rest =>
      match todo_update sch env db id data with
      | Some db' => transaction sch env db' rest
      | None => None
      end
  end.

(** ** POST /todos *)

(** A file as multer hands it to a route in [req.files]. *)
Module Multer.
Record File := mk {
  filename : string;
  originalname : string;
  size : Z;
  mimetype : string
}.
End Multer.

Record CreateBody := mkCreate {
  c_title : string;
  c_description : option string;
  c_assignedToId : string;
  c_dueDate : option string
}.

Definition file_of_upload (prefix : string) (todoId : string) (env : Env)
    (i : nat) (f : Multer.File) : File.t :=
  File.mk (uuid env i) (Multer.filename f) (Multer.originalname f)
    (prefix +:+ Multer.filename f) (Multer.size f) (Multer.mimetype f)
    (now env) todoId.

(** The handler of the route, reached once [upload.array('files', 5)],
    [validateTodoCreation] and [handleValidationErrors] have passed.
    [reqFiles] is [req.files]: the list of uploaded files of a
    multipart request, [None] ([undefined]) for any other request, for
    which [req.files.map] throws after the todo row has been created. *)
Definition create_todo (sch : Schema) (env : Env) (db : DB) (user : User.t)
    (body : CreateBody) (reqFiles : option (list Multer.File)) : Response * DB :=
  let createdById := User.id user in
  match user_findUnique db (c_assignedToId body) with
  | None => (json 400 (b_error "Assigned user not found or disabled"), db)
  | Some assignedUser =>
      if decide (User.status assignedUser = DISABLED) then
        (json 400 (b_error "Assigned user not found or disabled"), db)
      else
        let todo :=
          Todo.mk (uuid env 0) (c_title body) (c_description body)
            (default_status sch)
            (match truthy (c_dueDate body) with
             | Some d => Some (new_Date d)
             | None => None
             end)
            (default_order sch) (now env) (now env)
            createdById (c_assignedToId body) in
        let db1 := set_todos db (todos db ++ [todo]) in
        match reqFiles with
        | None => (next "TypeError: req.files is undefined", db1)
        | Some reqFiles =>
            let filesData :=
              imap (λ i f, file_of_upload "/uploads/" (Todo.id todo) env (S i) f)
                reqFiles in
            let db2 := set_files db1 (files db1 ++ filesData) in
            (json 201 (b_message_todo "Todo created successfully" (include db2 todo)),
             db2)
        end
  end.

(** ** PUT /todos/:id *)

Record UpdateBody := mkUpdate {
  u_title : option string;
  u_description : option string;
  u_status : option string;
  u_dueDate : option string;
  u_order : option Z;
  u_assignedToId : option string
}.

(** The handler of the route, reached once [validateTodoUpdate] and
    [handleValidationErrors] have passed. *)
Definition update_todo (sch : Schema) (env : Env) (db : DB) (user : User.t)
    (id : string) (body : UpdateBody) : Response * DB :=
  let userId := User.id user in
  match todo_findFirst db
          (TodoWhere.set_OR (accessOR userId) (TodoWhere.set_id id TodoWhere.empty)) with
  | None => (json 404 (b_error "Todo not found or access denied"), db)
  | Some existingTodo =>
      let updateData :=
        TodoData.mk (u_title body) (u_description body) (u_status body)
          (match u_dueDate body with
           | Some d => Some (match truthy (Some d) with
                             | Some d' => Some (new_Date d')
                             | None => None
                             end)
           | None => None
           end)
          (u_order body) None in
      let assigned :=
        match u_assignedToId body with
        | None => Some updateData
        | Some assignedToId =>
            match user_findUnique db assignedToId with
            | None => None
            | Some assignedUser =>
                if decide (User.status assignedUser = DISABLED) then None
                else Some (TodoData.mk (TodoData.title updateData)
                             (TodoData.description updateData)
                             (TodoData.status updateData)
                             (TodoData.dueDate updateData)
                             (TodoData.order updateData)
                             (Some assignedToId))
            end
        end in
      match assigned with
      | None => (json 400 (b_error "Assigned user not found or disabled"), db)
      | Some updateData =>
          match todo_update sch env db id updateData with
          | None => (next "prisma.todo.update", db)
          | Some db' =>
              match todo_findFirst db' (TodoWhere.set_id id TodoWhere.empty) with
              | Some todo =>
                  (json 200 (b_message_todo "Todo updated successfully" (include db' todo)), db')
              | None => (next "prisma.todo.update", db)
              end
          end
      end
  end.

(** ** PATCH /todos/reorder *)

(** One entry of [todoUpdates].  The route has no validator: [r_order]
    is any integer the body carries, and the update fails on one the
    column cannot hold (see [TodoData.apply]). *)
Record ReorderUpdate := mkReorder {
  r_id : string;
  r_order : Z
}.

#[global] Instance ReorderUpdate_eq_dec : EqDecision ReorderUpdate.
Proof. solve_decision. Defined.

(** [todoUpdates] is [None] when the body field is not an array. *)
Definition reorder_todos (sch : Schema) (env : Env) (db : DB) (user : User.t)
    (todoUpdates : option (list ReorderUpdate)) : Response * DB :=
  let userId := User.id user in
  match todoUpdates with
  | None => (json 400 (b_error "todoUpdates must be an array"), db)
  | Some todoUpdates =>
      let todoIds := r_id <$> todoUpdates in
      let userTodos :=
        todo_findMany db
          (TodoWhere.set_OR (accessOR userId) (TodoWhere.set_id_in todoIds TodoWhere.empty)) in
      if decide (length userTodos ≠ length todoIds) then
        (json 403 (b_error "Access denied to some todos"), db)
      else
        let updates :=
          (λ update, (r_id update,
                      TodoData.mk None None None None (Some (r_order update)) None))
            <$> todoUpdates in
        match transaction sch env db updates with
        | Some db' => (json 200 (b_message "Todo order updated successfully"), db')
        | None => (next "prisma.$transaction", db)
        end
  end.

(** ** DELETE /todos/:id *)

(** [prisma.todo.delete({ where: { id } })] under the schema's
    referential action for the files of the todo. *)
Definition todo_delete (sch : Schema) (db : DB) (id : string) : option DB :=
  match todo_findFirst db (TodoWhere.set_id id TodoWhere.empty) with
  | None => None
  | Some _ =>
      let rows := filter (λ row, Todo.id row ≠ id) (todos db) in
      match file_todo_onDelete sch with
      | Cascade =>
          Some (mkDB (users db) rows (filter (λ f, File.todoId f ≠ id) (files db)))
      | Restrict =>
          if decide (Exists (λ f, File.todoId f = id) (files db)) then None
          else Some (set_todos db rows)
      end
  end.

Definition delete_todo (sch : Schema) (db : DB) (user : User.t) (id : string)
  : Response * DB :=
  let userId := User.id user in
  match todo_findFirst db
          (TodoWhere.set_createdById userId (TodoWhere.set_id id TodoWhere.empty)) with
  | None => (json 404 (b_error "Todo not found or access denied"), db)
  | Some todo =>
      match todo_delete sch db id with
      | Some db' => (json 200 (b_message "Todo deleted successfully"), db')
      | None => (next "prisma.todo.delete", db)
      end
  end.

(** The route with the upload directory beside the database: the
    handler makes no call on the file system, so the directory comes
    out as it went in. *)
Definition delete_todo_fs (sch : Schema) (db : DB) (disk : Disk) (user : User.t)
    (id : string) : Response * DB * Disk :=
  (delete_todo sch db user id, disk).

(** ** Uploads: the multer configuration of the files router *)

Fixpoint drop_leading (c : ascii) (l : list ascii) : list ascii :=
  match l with
  | x :: l' => if decide (x = c) then drop_leading c l' else l
  | [] => []
  end.

Fixpoint take_until (c : ascii) (l : list ascii) : list ascii :=
  match l with
  | x :: l' => if decide (x = c) then [] else x :: take_until c l'
  | [] => []
  end.

(** [path.extname]: from the last dot of the last path component to
    its end; empty when that component has no dot, starts with its only
    dot, or is [".."]. *)
Definition extname (p : string) : string :=
  let base_rev :=
    take_until "/"%char (drop_leading "/"%char (reverse (list_ascii_of_string p))) in
  let ext_rev := take_until "."%char base_rev in
  if decide (ext_rev = base_rev) then ""
  else if decide (length base_rev = S (length ext_rev)) then ""
  else if decide (base_rev = ["."%char; "."%char]) then ""
  else string_of_list_ascii ("."%char :: reverse ext_rev).

Definition allowedTypes : list string :=
  ["jpeg"; "jpg"; "png"; "gif"; "pdf"; "doc"; "docx"; "txt"; "zip"; "rar";
   "xlsx"; "xls"; "ppt"; "pptx"].

(** [true] when the file is accepted, [false] when the filter calls
    back with [new Error('File type not allowed')]. *)
Definition fileFilter (originalname mimetype : string) : bool :=
  let extname :=
    existsb (includes (toLowerCase (extname originalname))) allowedTypes in
  let mimetype :=
    existsb (includes mimetype) ["image/"; "application/"; "text/"] in
  mimetype && extname.

(** [parseInt(process.env.MAX_FILE_SIZE!) || 10485760]; the argument is
    the parsed variable, [None] for [NaN]. *)
Definition fileSize (MAX_FILE_SIZE : option Z) : Z :=
  match MAX_FILE_SIZE with
  | Some n => if decide (n = 0) then 10485760 else n
  | None => 10485760
  end.

(** One file part of the multipart request, a part that carries a file
    name (multer passes over the others), with the suffix
    [Date.now() + '-' + Math.round(Math.random() * 1E9)] drawn for it. *)
Record Part := mkPart {
  p_fieldname : string;
  p_originalname : string;
  p_mimetype : string;
  p_content : string;
  p_uniqueSuffix : string
}.

#[global] Instance Part_eq_dec : EqDecision Part.
Proof. solve_decision. Defined.

Definition is_name_char (c : ascii) : bool :=
  let n := nat_of_ascii c in
  (Nat.leb 97 n && Nat.leb n 122) || (Nat.leb 65 n && Nat.leb n 90) ||
  (Nat.leb 48 n && Nat.leb n 57) || bool_decide (c = "."%char) || bool_decide (c = "-"%char).

(** [originalname.replace(/[^a-zA-Z0-9.-]/g, '_')] *)
Fixpoint sanitize (s : string) : string :=
  match s with
  | EmptyString => EmptyString
  | String c s' => String (if is_name_char c then c else "_"%char) (sanitize s')
  end.

Definition storage_filename (p : Part) : string :=
  p_uniqueSuffix p +:+ "-" +:+ sanitize (p_originalname p).

Definition part_size (p : Part) : Z := Z.of_nat (String.length (p_content p)).

Definition stored (p : Part) : Multer.File :=
  Multer.mk (storage_filename p) (p_originalname p) (part_size p) (p_mimetype p).

(** multer on an error: every file already written for the request is
    removed from the disk and the error goes to [next]. *)
Definition abort (disk : Disk) (uploaded : list Multer.File) (err : string)
  : Disk * (string + list Multer.File) :=
  (foldr (λ f d, delete (Multer.filename f) d) disk uploaded, inl err).

(** [upload.array('files', maxCount)] with the disk storage, size limit
    and file filter above.  Parts are taken in request order: a part
    under another field or beyond [maxCount] is unexpected; a part the
    filter rejects is not written; a part that reaches the limit is
    written up to the limit and aborts the request.  [inr] is
    [req.files]. *)
Fixpoint multer_array (limit : Z) (left : nat) (disk : Disk)
    (uploaded : list Multer.File) (parts : list Part) {struct parts}
  : Disk * (string + list Multer.File) :=
  match parts with
  | [] => (disk, inr uploaded)
  | p :: rest =>
      match left with
      | O => abort disk uploaded "LIMIT_UNEXPECTED_FILE"
      | S left' =>
          if decide (p_fieldname p ≠ "files") then
            abort disk uploaded "LIMIT_UNEXPECTED_FILE"
          else if negb (fileFilter (p_originalname p) (p_mimetype p)) then
            abort disk uploaded "File type not allowed"
          else if decide (limit ≤ part_size p) then
            abort (<[storage_filename p :=
                       String.substring 0 (Z.to_nat limit) (p_content p)]> disk)
                  (uploaded ++ [stored p]) "LIMIT_FILE_SIZE"
          else
            multer_array limit left' (<[storage_filename p := p_content p]> disk)
              (uploaded ++ [stored p]) rest
      end
  end.

(** ** POST /files/upload/:todoId *)

Definition upload_files (MAX_FILE_SIZE : option Z) (env : Env) (db : DB)
    (disk : Disk) (user : User.t) (todoId : string) (parts : list Part)
  : Response * DB * Disk :=
  match multer_array (fileSize MAX_FILE_SIZE) 5 disk [] parts with
  | (disk', inl err) => (next err, db, disk')
  | (disk', inr reqFiles) =>
      let userId := User.id user in
      match todo_findFirst db
              (TodoWhere.set_OR (accessOR userId)
                 (TodoWhere.set_id todoId TodoWhere.empty)) with
      | None => (json 404 (b_error "Todo not found or access denied"), db, disk')
      | Some todo =>
          match reqFiles with
          | [] => (json 400 (b_error "No files uploaded"), db, disk')
          | _ =>
              let created :=
                imap (file_of_upload "/uploads/todos/" todoId env) reqFiles in
              (json 201 (b_message_files "Files uploaded successfully" created),
               set_files db (files db ++ created), disk')
          end
      end
  end.

(** ** GET /files/download/:id *)

(** The characters [res.setHeader] accepts in a header value: the tab
    and the codes 32 to 126 and 128 to 255.  A string of this model
    holds characters of the codes 0 to 255 only; a character above
    them, which the header refuses as well, is outside it. *)
Definition header_char (c : ascii) : bool :=
  let n := nat_of_ascii c in
  Nat.eqb n 9 || (Nat.leb 32 n && negb (Nat.eqb n 127)).

Fixpoint valid_header_value (s : string) : bool :=
  match s with
  | EmptyString => true
  | String c s' => header_char c && valid_header_value s'
  end.

(** The value of the [Content-Disposition] header. *)
Definition content_disposition (originalName : string) : string :=
  "attachment; filename=" +:+ String (ascii_of_nat 34) originalName
    +:+ String (ascii_of_nat 34) EmptyString.

Module FileWhere.
(** [{ id, todo: { ... } }]: the [todo] key filters on the related
    todo row. *)
Record t := mk {
  id : option string;
  todo : option TodoWhere.t
}.

Definition matches (db : DB) (w : t) (row : File.t) : bool :=
  TodoWhere.key (id w) (λ v, bool_decide (File.id row = v)) &&
  TodoWhere.key (todo w) (λ tw,
    match todo_findFirst db (TodoWhere.set_id (File.todoId row) TodoWhere.empty) with
    | Some t => TodoWhere.matches tw t
    | None => false
    end).
End FileWhere.

Definition file_findFirst (db : DB) (w : FileWhere.t) : option File.t :=
  head (filter (λ row, FileWhere.matches db w row = true) (files db)).

Definition download_file (db : DB) (disk : Disk) (user : User.t) (id : string)
  : Response :=
  let userId := User.id user in
  match file_findFirst db
          (FileWhere.mk (Some id)
             (Some (TodoWhere.set_OR (accessOR userId) TodoWhere.empty))) with
  | None => json 404 (b_error "File not found or access denied")
  | Some file =>
      match disk !! File.filename file with
      | None => json 404 (b_error "File not found on disk")
      | Some content =>
          if valid_header_value (content_disposition (File.originalName file)) &&
             valid_header_value (File.mimeType file)
          then attachment (File.originalName file) (File.mimeType file) content
          else next "ERR_INVALID_CHAR"
      end
  end.

(** ** The error taxonomy of the responses *)

Definition NotFoundOrForbidden (r : Response) : Prop :=
  r = json 404 (b_error "Todo not found or access denied").

Definition AccessDenied (r : Response) : Prop :=
  ∃ msg, r = json 403 (b_error msg).

Definition InvalidAssignee (r : Response) : Prop :=
  r = json 400 (b_error "Assigned user not found or disabled").

Definition NotFound (r : Response) : Prop :=
  ∃ msg, r = json 404 (b_error msg).

Definition is_success (r : Response) : Prop :=
  match r with
  | json status _ => 200 ≤ status < 300
  | attachment _ _ _ => True
  | next _ => False
  end.

(** ** Responses of the remaining routes *)

(** A response with the payload type of its route: a JSON body sent
    with a status, an [{ error }] body, or an error passed to [next]. *)
Inductive Reply (A : Type) :=
| sent (status : Z) (payload : A)
| refused (status : Z) (error : string)
| passed (error : string).

Arguments sent {A} status payload.
Arguments refused {A} status error.
Arguments passed {A} error.

(** ** GET /todos/users/assignable *)

(** [orderBy: { name: 'asc' }] *)
Definition by_name (a b : User.t) : Prop :=
  String.leb (User.name a) (User.name b) = true.

#[global] Instance by_name_dec a b : Decision (by_name a b).
Proof. unfold by_name. apply _. Defined.

Definition assignable_rows (db : DB) : list User.t :=
  merge_sort by_name (filter (λ u, User.status u = ACTIVE) (users db)).

Definition assignable_users (db : DB) : Reply (list UserSummary) :=
  sent 200 (summary <$> assignable_rows db).

(** ** GET /files/todo/:todoId *)

(** [orderBy: { createdAt: 'desc' }] *)
Definition newest_first (a b : File.t) : Prop :=
  File.createdAt b ≤ File.createdAt a.

#[global] Instance newest_first_dec a b : Decision (newest_first a b).
Proof. unfold newest_first. apply _. Defined.

Definition todo_files (db : DB) (user : User.t) (todoId : string)
  : Reply (list File.t) :=
  let userId := User.id user in
  match todo_findFirst db
          (TodoWhere.set_OR (accessOR userId)
             (TodoWhere.set_id todoId TodoWhere.empty)) with
  | None => refused 404 "Todo not found or access denied"
  | Some todo =>
      sent 200 (merge_sort newest_first
                  (filter (λ f, File.todoId f = todoId) (files db)))
  end.

(** ** GET /files *)

Definition file_findMany (db : DB) (w : FileWhere.t) : list File.t :=
  filter (λ row, FileWhere.matches db w row = true) (files db).

(** The [include: { todo: ... }] of the file routes. *)
Definition related_todo (db : DB) (file : File.t) : option Todo.t :=
  todo_findFirst db (TodoWhere.set_id (File.todoId file) TodoWhere.empty).

Definition user_file_rows (db : DB) (user : User.t) : list File.t :=
  merge_sort newest_first
    (file_findMany db
       (FileWhere.mk None
          (Some (TodoWhere.set_OR (accessOR (User.id user)) TodoWhere.empty)))).

Definition user_files (db : DB) (user : User.t)
  : Reply (list (File.t * option Todo.t)) :=
  sent 200 ((λ f, (f, related_todo db f)) <$> user_file_rows db user).

(** ** GET /files/:id *)

Definition file_info (db : DB) (user : User.t) (id : string)
  : Reply (File.t * option Todo.t) :=
  let userId := User.id user in
  match file_findFirst db
          (FileWhere.mk (Some id)
             (Some (TodoWhere.set_OR (accessOR userId) TodoWhere.empty))) with
  | None => refused 404 "File not found or access denied"
  | Some file => sent 200 (file, related_todo db file)
  end.

(** ** DELETE /files/:id *)

Definition delete_file (db : DB) (disk : Disk) (user : User.t) (id : string)
  : Response * DB * Disk :=
  let userId := User.id user in
  match file_findFirst db
          (FileWhere.mk (Some id)
             (Some (TodoWhere.set_OR (accessOR userId) TodoWhere.empty))) with
  | None => (json 404 (b_error "File not found or access denied"), db, disk)
  | Some file =>
      let disk' :=
        match disk !! File.filename file with
        | Some _ => delete (File.filename file) disk
        | None => disk
        end in
      (json 200 (b_message "File deleted successfully"),
       set_files db (filter (λ f, File.id f ≠ id) (files db)), disk')
  end.

(** ** The users router *)

(** The [data] object of [prisma.user.update]. *)
Module UserData.
Record t := mk {
  name : option string;
  email : option string;
  status : option UserStatus;
  profilePicture : option string
}.

Definition apply (d : t) (row : User.t) : User.t :=
  User.mk (User.id row)
    (default (User.name row) (name d))
    (default (User.email row) (email d))
    (User.role row)
    (default (User.status row) (status d))
    (match profilePicture d with Some p => Some p | None => User.profilePicture row end).
End UserData.

(** [prisma.user.update({ where: { id }, data })]; [None] when the
    client throws: no such row, or the new email is the email of
    another row ([email] is a unique column). *)
Definition user_update (db : DB) (id : string) (data : UserData.t) : option DB :=
  match user_findUnique db id with
  | None => None
  | Some _ =>
      if decide (Exists (λ u, User.id u ≠ id ∧ Some (User.email u) = UserData.email data)
                   (users db))
      then None
      else Some (mkDB ((λ u, if decide (User.id u = id) then UserData.apply data u else u)
                         <$> users db)
                   (todos db) (files db))
  end.

(** GET /users/:id *)
Definition get_user (db : DB) (caller : User.t) (id : string) : Reply User.t :=
  if decide (User.role caller ≠ ADMIN ∧ User.id caller ≠ id) then
    refused 403 "Access denied"
  else
    match user_findUnique db id with
    | None => refused 404 "User not found"
    | Some user => sent 200 user
    end.

(** PUT /users/:id, once [validateUserUpdate] and
    [handleValidationErrors] have passed. *)
Definition update_user (db : DB) (caller : User.t) (id : string)
    (name email : option string) : Reply User.t * DB :=
  if decide (User.role caller ≠ ADMIN ∧ User.id caller ≠ id) then
    (refused 403 "Access denied", db)
  else
    let updateData := UserData.mk (truthy name) (truthy email) None None in
    match user_update db id updateData with
    | None => (passed "prisma.user.update", db)
    | Some db' =>
        match user_findUnique db' id with
        | Some user => (sent 200 user, db')
        | None => (passed "prisma.user.update", db)
        end
    end.



(** ** The pages of the client *)

(** The counters of the dashboard: total, pending, in progress and
    completed todos. *)
Definition dashboard_stats (todos : list Todo.t) : nat * nat * nat * nat :=
  (length todos,
   length (filter (λ todo, Todo.status todo = PENDING) todos),
   length (filter (λ todo, Todo.status todo = IN_PROGRESS) todos),
   length (filter (λ todo, Todo.status todo = COMPLETED) todos)).

(** The query string [loadTodos] of the todos page builds from its two
    selectors; the page sends no search text. *)
Definition loadTodos_query (filter statusFilter : string) : ListQuery :=
  mkQuery
    (if decide (filter = "my-todos") then Some "created"
     else if decide (filter = "assigned-to-me") then Some "assigned"
     else None)
    (if decide (statusFilter ≠ "all") then Some statusFilter else None)
    None.

(** ** What a reorder does to a row *)

(** [data: { order: update.order }] *)
Definition order_data (update : ReorderUpdate) : string * TodoData.t :=
  (r_id update, TodoData.mk None None None None (Some (r_order update)) None).

(** What a reorder made of a row: everything but [order] and
    [updatedAt] as before, the order the update with its id asks for,
    and the row itself when no update has its id. *)
Definition reordered (updates : list ReorderUpdate) (t t' : Todo.t) : Prop :=
  Todo.id t' = Todo.id t ∧
  Todo.title t' = Todo.title t ∧
  Todo.description t' = Todo.description t ∧
  Todo.status t' = Todo.status t ∧
  Todo.dueDate t' = Todo.dueDate t ∧
  Todo.createdAt t' = Todo.createdAt t ∧
  Todo.createdById t' = Todo.createdById t ∧
  Todo.assignedToId t' = Todo.assignedToId t ∧
  (∀ u, u ∈ updates → r_id u = Todo.id t → Todo.order t' = r_order u) ∧
  (Todo.id t ∉ r_id <$> updates → t' = t).

(** ** What an accepted batch leaves on disk *)

(** A part the upload middleware accepts: sent under the field
    [files], passed by the file filter and below the size limit. *)
Definition valid_part (limit : Z) (p : Part) : Prop :=
  p_fieldname p = "files" ∧
  fileFilter (p_originalname p) (p_mimetype p) = true ∧
  part_size p < limit.

#[global] Instance valid_part_dec limit p : Decision (valid_part limit p).
Proof. unfold valid_part. apply _. Defined.

(** The upload directory after every part has been written. *)
Definition written (disk : Disk) (parts : list Part) : Disk :=
  foldl (λ d p, <[storage_filename p := p_content p]> d) disk parts.


(** What a profile update may change in a user row. *)
Definition profile_updated (id : string) (name email : option string)
    (u u' : User.t) : Prop :=
  User.id u' = User.id u ∧ User.role u' = User.role u ∧
  User.status u' = User.status u ∧ User.profilePicture u' = User.profilePicture u ∧
  (User.id u ≠ id → u' = u) ∧
  (truthy name = None → User.name u' = User.name u) ∧
  (truthy email = None → User.email u' = User.email u).

(** The id resolves to a user row whose status is [ACTIVE]. *)
Definition active_user (db : DB) (id : string) : Prop :=
  Exists (λ u, User.id u = id ∧ User.status u = ACTIVE) (users db).

#[global] Instance active_user_dec db id : Decision (active_user db id).
Proof. unfold active_user. apply _. Defined.

(** ** A sample state

    Alice created both todos; the first is assigned to Bob.  Carol is
    an administrator unrelated to either, Dan is disabled. *)

Module Sample.
Definition alice := User.mk "u1" "Alice" "alice@example.com" USER ACTIVE None.
Definition bob := User.mk "u2" "Bob" "bob@example.com" USER ACTIVE None.
Definition carol := User.mk "u3" "Carol" "carol@example.com" ADMIN ACTIVE None.
Definition dan := User.mk "u4" "Dan" "dan@example.com" USER DISABLED None.

Definition milk :=
  Todo.mk "t1" "Buy Milk" None PENDING None 2 100 100 "u1" "u2".
Definition report :=
  Todo.mk "t2" "Write report" (Some "quarterly numbers") PENDING None 1 200 200 "u1" "u1".

Definition notes :=
  File.mk "f1" "1700000000000-42-notes.txt" "notes.txt"
    "/uploads/todos/1700000000000-42-notes.txt" 3 "text/plain" 150 "t1".

Definition db := mkDB [alice; bob; carol; dan] [milk; report] [notes].

Definition env := mkEnv 1000 (λ n, "generated-" +:+ String (ascii_of_nat (48 + n)) "").

Definition cascading := mkSchema PENDING 0 true Cascade.

Definition restricting := mkSchema PENDING 0 true Restrict.

(** The upload directory: the object stored for [notes]. *)
Definition uploads : Disk := {[ "1700000000000-42-notes.txt" := "abc" ]}.

(** Three parts of one upload; the second is over a limit of 4 bytes. *)
Definition batch :=
  [mkPart "files" "a.txt" "text/plain" "abc" "1700000000001-1";
   mkPart "files" "b.txt" "text/plain" "abcdef" "1700000000002-2";
   mkPart "files" "c.txt" "text/plain" "ab" "1700000000003-3"].
End Sample.

(** * Properties *)

Ltac by_compute := apply (bool_decide_unpack _); vm_compute; exact I.

(** ** Queries with a unique key *)

Lemma head_filter_unique {A} (f : A → string) (P : A → Prop)
    `{!∀ x, Decision (P x)} (l : list A) (x : A) :
  NoDup (f <$> l) → x ∈ l → (∀ y, P y → f y = f x) →
  head (filter P l) = if decide (P x) then Some x else None.
Proof.
  intros Hnd Hx Hkey. induction l as [|y l IH]; [by apply elem_of_nil in Hx|].
  rewrite fmap_cons in Hnd. apply NoDup_cons in Hnd as [Hy Hnd].
  rewrite filter_cons. apply elem_of_cons in Hx as [->|Hx].
  - destruct (decide (P y)) as [|Hn]; [done|].
    destruct (filter P l) as [|z k] eqn:Hf; [done|].
    assert (Hz : z ∈ filter P l) by (rewrite Hf; left).
    apply list_elem_of_filter in Hz as [HPz Hz].
    destruct Hy. rewrite <- (Hkey z HPz). by apply list_elem_of_fmap_2.
  - destruct (decide (P y)) as [HPy|]; [|by apply IH].
    destruct Hy. rewrite (Hkey y HPy). by apply list_elem_of_fmap_2.
Qed.

Lemma head_filter_None {A} (P : A → Prop) `{!∀ x, Decision (P x)} (l : list A) :
  head (filter P l) = None ↔ ∀ x, x ∈ l → ¬ P x.
Proof.
  rewrite head_None. split.
  - intros Hnil x Hx HP.
    assert (Hin : x ∈ filter P l) by (apply list_elem_of_filter; done).
    rewrite Hnil in Hin. by apply elem_of_nil in Hin.
  - intros Hall. destruct (filter P l) as [|z k] eqn:Hf; [done|].
    assert (Hz : z ∈ filter P l) by (rewrite Hf; left).
    apply list_elem_of_filter in Hz as [HPz Hz]. by destruct (Hall z Hz).
Qed.

(** ** The access clause *)

Lemma accessOR_holds userId row :
  existsb (λ c, TodoWhere.holds c row) (accessOR userId) = true ↔
  Todo.assignedToId row = userId ∨ Todo.createdById row = userId.
Proof.
  cbn. rewrite orb_false_r, orb_true_iff, !bool_decide_eq_true. tauto.
Qed.

Lemma canAccess_spec user todo :
  canAccess user todo = true ↔
  User.id user = Todo.createdById todo ∨ User.id user = Todo.assignedToId todo.
Proof.
  unfold canAccess, TodoWhere.matches. cbn -[existsb accessOR].
  rewrite accessOR_holds. intuition congruence.
Qed.

Lemma matches_id_access userId id row :
  TodoWhere.matches
    (TodoWhere.set_OR (accessOR userId) (TodoWhere.set_id id TodoWhere.empty)) row = true ↔
  Todo.id row = id ∧ (Todo.assignedToId row = userId ∨ Todo.createdById row = userId).
Proof.
  unfold TodoWhere.matches. cbn -[existsb accessOR].
  rewrite !andb_true_r, andb_true_iff, bool_decide_eq_true, accessOR_holds. tauto.
Qed.

Lemma matches_id id row :
  TodoWhere.matches (TodoWhere.set_id id TodoWhere.empty) row = true ↔ Todo.id row = id.
Proof.
  unfold TodoWhere.matches. cbn. rewrite !andb_true_r. apply bool_decide_eq_true.
Qed.

(** Looking a todo up by its id under the access clause finds exactly
    that row, when the caller passes the clause. *)
Lemma findFirst_id_access db user T :
  NoDup (Todo.id <$> todos db) → T ∈ todos db →
  todo_findFirst db
    (TodoWhere.set_OR (accessOR (User.id user))
       (TodoWhere.set_id (Todo.id T) TodoWhere.empty))
  = if canAccess user T then Some T else None.
Proof.
  intros Hnd HT. unfold todo_findFirst, todo_findMany.
  rewrite (head_filter_unique Todo.id _ _ T Hnd HT).
  - destruct (canAccess user T) eqn:Hacc.
    + apply canAccess_spec in Hacc.
      rewrite decide_True; [done|]. apply matches_id_access. intuition congruence.
    + rewrite decide_False; [done|]. intros Hm. apply matches_id_access in Hm as [_ Hm].
      assert (canAccess user T = true) by (apply canAccess_spec; intuition congruence).
      congruence.
  - intros y Hy. by apply matches_id_access in Hy as [? _].
Qed.

Lemma findFirst_id db T :
  NoDup (Todo.id <$> todos db) → T ∈ todos db →
  todo_findFirst db (TodoWhere.set_id (Todo.id T) TodoWhere.empty) = Some T.
Proof.
  intros Hnd HT. unfold todo_findFirst, todo_findMany.
  rewrite (head_filter_unique Todo.id _ _ T Hnd HT).
  - rewrite decide_True; [done|]. by apply matches_id.
  - intros y Hy. by apply matches_id in Hy.
Qed.

(** What the 200 answer of GET /todos/:id carries for the todo [T]: the
    row itself, the summary of its creator and of its assignee, and
    exactly the file rows attached to it. *)
Lemma include_payload db (T : Todo.t) :
  rel_todo (include db T) = T ∧
  (∀ f, f ∈ rel_files (include db T) ↔ f ∈ files db ∧ File.todoId f = Todo.id T) ∧
  (∀ u, NoDup (User.id <$> users db) → u ∈ users db →
        (User.id u = Todo.createdById T →
           rel_createdBy (include db T)
           = Some (mkSummary (User.id u) (User.name u) (User.email u)
                     (User.profilePicture u))) ∧
        (User.id u = Todo.assignedToId T →
           rel_assignedTo (include db T)
           = Some (mkSummary (User.id u) (User.name u) (User.email u)
                     (User.profilePicture u)))).
Proof.
  split; [done|]. split.
  - intros f. unfold include. cbn. rewrite list_elem_of_filter. tauto.
  - intros u Hnd Hu. unfold include, user_findUnique. cbn.
    split; intros <-;
      (rewrite (head_filter_unique User.id _ _ u Hnd Hu); [|done]);
      by rewrite decide_True.
Qed.

(** C1. The access predicate holds iff the caller is the creator or the
    assignee of the todo; GET /todos/:id returns the todo exactly in
    that case and answers 404 otherwise, whatever the caller's role: an
    administrator who is neither creator nor assignee is denied.  PUT
    /todos/:id denies the same callers with the same 404.  The todo
    returned is [T] itself: the body of the 200 answer holds the row
    [T], the file rows attached to [T] and no other, and the summaries
    of the users who created it and are assigned to it. *)
Theorem get_todo_iff_creator_or_assignee db (U : User.t) (T : Todo.t) :
  NoDup (Todo.id <$> todos db) → T ∈ todos db →
  (canAccess U T = true ↔
     User.id U = Todo.createdById T ∨ User.id U = Todo.assignedToId T) ∧
  (get_todo db U (Todo.id T) = json 200 (b_todo (include db T)) ↔
     User.id U = Todo.createdById T ∨ User.id U = Todo.assignedToId T) ∧
  (¬ (User.id U = Todo.createdById T ∨ User.id U = Todo.assignedToId T) →
     NotFoundOrForbidden (get_todo db U (Todo.id T))) ∧
  (User.role U = ADMIN →
     User.id U ≠ Todo.createdById T → User.id U ≠ Todo.assignedToId T →
     get_todo db U (Todo.id T) = json 404 (b_error "Todo not found or access denied")) ∧
  (∀ sch env body,
     NotFoundOrForbidden (update_todo sch env db U (Todo.id T) body).1 ↔
     ¬ (User.id U = Todo.createdById T ∨ User.id U = Todo.assignedToId T)) ∧
  (User.id U = Todo.createdById T ∨ User.id U = Todo.assignedToId T →
     ∃ v, get_todo db U (Todo.id T) = json 200 (b_todo v) ∧
          rel_todo v = T ∧
          (∀ f, f ∈ rel_files v ↔ f ∈ files db ∧ File.todoId f = Todo.id T) ∧
          (∀ u, NoDup (User.id <$> users db) → u ∈ users db →
                (User.id u = Todo.createdById T →
                   rel_createdBy v
                   = Some (mkSummary (User.id u) (User.name u) (User.email u)
                             (User.profilePicture u))) ∧
                (User.id u = Todo.assignedToId T →
                   rel_assignedTo v
                   = Some (mkSummary (User.id u) (User.name u) (User.email u)
                             (User.profilePicture u))))).
Proof.
  intros Hnd HT.
  assert (Hput : ∀ sch env body,
    NotFoundOrForbidden (update_todo sch env db U (Todo.id T) body).1 ↔
    canAccess U T = false).
  { intros sch env body. unfold update_todo, NotFoundOrForbidden.
    rewrite (findFirst_id_access db U T Hnd HT).
    destruct (canAccess U T); [|done].
    split; [|done]. repeat case_match; cbn; discriminate. }
  assert (Hget : get_todo db U (Todo.id T) =
                 if canAccess U T then json 200 (b_todo (include db T))
                 else json 404 (b_error "Todo not found or access denied")).
  { unfold get_todo. rewrite (findFirst_id_access db U T Hnd HT).
    by destruct (canAccess U T). }
  pose proof (canAccess_spec U T) as Hspec.
  split; [done|]. rewrite Hget. unfold NotFoundOrForbidden.
  assert (Hfalse : canAccess U T = false ↔
            ¬ (User.id U = Todo.createdById T ∨ User.id U = Todo.assignedToId T)).
  { rewrite <- Hspec. by destruct (canAccess U T). }
  split; [|split; [|split; [|split]]].
  - rewrite <- Hspec. by destruct (canAccess U T).
  - intros Hno. apply Hfalse in Hno. by rewrite Hno.
  - intros _ Hc Ha. assert (Hno : canAccess U T = false) by (apply Hfalse; tauto).
    by rewrite Hno.
  - intros sch env body. rewrite <- Hfalse. apply Hput.
  - intros Hacc. apply Hspec in Hacc. rewrite Hacc.
    exists (include db T). split; [done|]. apply include_payload.
Qed.

Lemma get_todo_iff_creator_or_assignee_witness :
  ((canAccess Sample.carol Sample.milk = true ↔
     User.id Sample.carol = Todo.createdById Sample.milk ∨
     User.id Sample.carol = Todo.assignedToId Sample.milk) ∧
  (get_todo Sample.db Sample.carol (Todo.id Sample.milk)
     = json 200 (b_todo (include Sample.db Sample.milk)) ↔
     User.id Sample.carol = Todo.createdById Sample.milk ∨
     User.id Sample.carol = Todo.assignedToId Sample.milk) ∧
  (¬ (User.id Sample.carol = Todo.createdById Sample.milk ∨
      User.id Sample.carol = Todo.assignedToId Sample.milk) →
     NotFoundOrForbidden (get_todo Sample.db Sample.carol (Todo.id Sample.milk))) ∧
  (User.role Sample.carol = ADMIN →
     User.id Sample.carol ≠ Todo.createdById Sample.milk →
     User.id Sample.carol ≠ Todo.assignedToId Sample.milk →
     get_todo Sample.db Sample.carol (Todo.id Sample.milk)
       = json 404 (b_error "Todo not found or access denied")) ∧
  (∀ sch env body,
     NotFoundOrForbidden (update_todo sch env Sample.db Sample.carol
                            (Todo.id Sample.milk) body).1 ↔
     ¬ (User.id Sample.carol = Todo.createdById Sample.milk ∨
        User.id Sample.carol = Todo.assignedToId Sample.milk)) ∧
  (User.id Sample.carol = Todo.createdById Sample.milk ∨
   User.id Sample.carol = Todo.assignedToId Sample.milk →
     ∃ v, get_todo Sample.db Sample.carol (Todo.id Sample.milk) = json 200 (b_todo v) ∧
          rel_todo v = Sample.milk ∧
          (∀ f, f ∈ rel_files v ↔
                f ∈ files Sample.db ∧ File.todoId f = Todo.id Sample.milk) ∧
          (∀ u, NoDup (User.id <$> users Sample.db) → u ∈ users Sample.db →
                (User.id u = Todo.createdById Sample.milk →
                   rel_createdBy v
                   = Some (mkSummary (User.id u) (User.name u) (User.email u)
                             (User.profilePicture u))) ∧
                (User.id u = Todo.assignedToId Sample.milk →
                   rel_assignedTo v
                   = Some (mkSummary (User.id u) (User.name u) (User.email u)
                             (User.profilePicture u)))))) ∧
  (∃ v, get_todo Sample.db Sample.bob (Todo.id Sample.milk) = json 200 (b_todo v) ∧
        rel_todo v = Sample.milk ∧
        (∀ f, f ∈ rel_files v ↔
              f ∈ files Sample.db ∧ File.todoId f = Todo.id Sample.milk) ∧
        (∀ u, NoDup (User.id <$> users Sample.db) → u ∈ users Sample.db →
              (User.id u = Todo.createdById Sample.milk →
                 rel_createdBy v
                 = Some (mkSummary (User.id u) (User.name u) (User.email u)
                           (User.profilePicture u))) ∧
              (User.id u = Todo.assignedToId Sample.milk →
                 rel_assignedTo v
                 = Some (mkSummary (User.id u) (User.name u) (User.email u)
                           (User.profilePicture u))))).
Proof.
  split.
  - apply (get_todo_iff_creator_or_assignee Sample.db Sample.carol Sample.milk).
    + by_compute.
    + by_compute.
  - apply (get_todo_iff_creator_or_assignee Sample.db Sample.bob Sample.milk).
    + by_compute.
    + by_compute.
    + right. reflexivity.
Defined.


(** ** The reorder check *)

Lemma matches_in_access userId ids row :
  TodoWhere.matches
    (TodoWhere.set_OR (accessOR userId) (TodoWhere.set_id_in ids TodoWhere.empty)) row = true ↔
  Todo.id row ∈ ids ∧ (Todo.assignedToId row = userId ∨ Todo.createdById row = userId).
Proof.
  unfold TodoWhere.matches. cbn -[existsb accessOR].
  rewrite !andb_true_r, andb_true_iff, bool_decide_eq_true, accessOR_holds. tauto.
Qed.

Section Reorder.
Context (db : DB) (user : User.t) (ids : list string).
Hypothesis todo_ids_unique : NoDup (Todo.id <$> todos db).

Let userTodos :=
  todo_findMany db
    (TodoWhere.set_OR (accessOR (User.id user)) (TodoWhere.set_id_in ids TodoWhere.empty)).

Lemma userTodos_incl : Todo.id <$> userTodos ⊆+ ids.
Proof.
  apply NoDup_submseteq.
  - apply (sublist_NoDup _ (Todo.id <$> todos db)); [done|].
    apply fmap_sublist, sublist_filter.
  - intros id Hid. apply list_elem_of_fmap in Hid as (t & -> & Ht).
    apply list_elem_of_filter in Ht as [Hm _].
    by apply matches_in_access in Hm as [? _].
Qed.

Lemma userTodos_length_le : (length userTodos ≤ length ids)%nat.
Proof.
  rewrite <- (length_fmap Todo.id userTodos).
  apply submseteq_length, userTodos_incl.
Qed.

(** The two lengths agree only for a list of distinct ids, each the id
    of a row the caller can access. *)
Lemma userTodos_length_eq :
  length userTodos = length ids →
  NoDup ids ∧
  ∀ id, id ∈ ids → ∃ t, t ∈ todos db ∧ Todo.id t = id ∧ canAccess user t = true.
Proof.
  intros Hlen.
  assert (Hperm : Todo.id <$> userTodos ≡ₚ ids).
  { apply submseteq_length_Permutation; [apply userTodos_incl|].
    rewrite length_fmap. lia. }
  split.
  - rewrite <- Hperm.
    apply (sublist_NoDup _ (Todo.id <$> todos db)); [done|].
    apply fmap_sublist, sublist_filter.
  - intros id Hid. rewrite <- Hperm in Hid.
    apply list_elem_of_fmap in Hid as (t & -> & Ht).
    apply list_elem_of_filter in Ht as [Hm Ht].
    apply matches_in_access in Hm as [_ Hm].
    exists t. repeat split; [done|]. apply canAccess_spec. intuition congruence.
Qed.
End Reorder.

Lemma reorder_rejected sch env db user updates :
  length (todo_findMany db
            (TodoWhere.set_OR (accessOR (User.id user))
               (TodoWhere.set_id_in (r_id <$> updates) TodoWhere.empty)))
    ≠ length (r_id <$> updates) →
  reorder_todos sch env db user (Some updates)
  = (json 403 (b_error "Access denied to some todos"), db).
Proof. intros Hne. unfold reorder_todos. by rewrite decide_True. Qed.

(** C2. When some id of the list is not accessible to the caller, also
    because no todo has it, the reorder request is answered 403 and the
    database is the one before the request: no order value changes. *)
Theorem reorder_inaccessible_id_rejected sch env db user updates :
  NoDup (Todo.id <$> todos db) →
  (∃ u, u ∈ updates ∧
        ∀ t, t ∈ todos db → Todo.id t = r_id u → canAccess user t = false) →
  AccessDenied (reorder_todos sch env db user (Some updates)).1 ∧
  (reorder_todos sch env db user (Some updates)).2 = db.
Proof.
  intros Hnd (u & Hu & Hno).
  rewrite reorder_rejected; [split; [by eexists|done]|].
  intros Hlen. apply (userTodos_length_eq db user _ Hnd) in Hlen as [_ Hall].
  destruct (Hall (r_id u)) as (t & Ht & Hid & Hacc); [by apply list_elem_of_fmap_2|].
  rewrite (Hno t Ht Hid) in Hacc. discriminate.
Qed.

Lemma reorder_inaccessible_id_rejected_witness :
  AccessDenied
    (reorder_todos Sample.cascading Sample.env Sample.db Sample.bob
       (Some [mkReorder "t1" 7; mkReorder "t2" 8])).1 ∧
  (reorder_todos Sample.cascading Sample.env Sample.db Sample.bob
     (Some [mkReorder "t1" 7; mkReorder "t2" 8])).2 = Sample.db.
Proof.
  apply (reorder_inaccessible_id_rejected Sample.cascading Sample.env Sample.db Sample.bob
           [mkReorder "t1" 7; mkReorder "t2" 8]).
  - by_compute.
  - exists (mkReorder "t2" 8). split; [by_compute|].
    apply (proj1 (Forall_forall
             (λ t, Todo.id t = "t2" → canAccess Sample.bob t = false)
             (todos Sample.db))).
    by_compute.
Defined.

(** C9. A list in which an id occurs twice is always answered 403 and
    changes nothing, whether or not the caller can access its ids: the
    rows found are distinct, so there are fewer of them than entries. *)
Theorem reorder_duplicate_id_rejected sch env db user updates :
  NoDup (Todo.id <$> todos db) →
  ¬ NoDup (r_id <$> updates) →
  (length (todo_findMany db
             (TodoWhere.set_OR (accessOR (User.id user))
                (TodoWhere.set_id_in (r_id <$> updates) TodoWhere.empty)))
     < length (r_id <$> updates))%nat ∧
  AccessDenied (reorder_todos sch env db user (Some updates)).1 ∧
  (reorder_todos sch env db user (Some updates)).2 = db.
Proof.
  intros Hnd Hdup.
  assert (Hne : length (todo_findMany db
                  (TodoWhere.set_OR (accessOR (User.id user))
                     (TodoWhere.set_id_in (r_id <$> updates) TodoWhere.empty)))
                ≠ length (r_id <$> updates)).
  { intros Hlen. by apply (userTodos_length_eq db user _ Hnd) in Hlen as [? _]. }
  split.
  - pose proof (userTodos_length_le db user (r_id <$> updates) Hnd). lia.
  - rewrite reorder_rejected by done. split; [by eexists|done].
Qed.

Lemma reorder_duplicate_id_rejected_witness :
  (length (todo_findMany Sample.db
             (TodoWhere.set_OR (accessOR (User.id Sample.alice))
                (TodoWhere.set_id_in
                   (r_id <$> [mkReorder "t1" 5; mkReorder "t1" 6]) TodoWhere.empty)))
     < length (r_id <$> [mkReorder "t1" 5; mkReorder "t1" 6]))%nat ∧
  AccessDenied
    (reorder_todos Sample.cascading Sample.env Sample.db Sample.alice
       (Some [mkReorder "t1" 5; mkReorder "t1" 6])).1 ∧
  (reorder_todos Sample.cascading Sample.env Sample.db Sample.alice
     (Some [mkReorder "t1" 5; mkReorder "t1" 6])).2 = Sample.db.
Proof.
  apply (reorder_duplicate_id_rejected Sample.cascading Sample.env Sample.db Sample.alice
           [mkReorder "t1" 5; mkReorder "t1" 6]).
  - by_compute.
  - by_compute.
Defined.


(** ** The list route *)

Lemma parseStatus_None status :
  status ≠ "PENDING" → status ≠ "IN_PROGRESS" → status ≠ "COMPLETED" →
  parseStatus status = None.
Proof. intros. unfold parseStatus. by rewrite !decide_False. Qed.

Lemma list_rows_elem db user q t :
  t ∈ list_rows db user q ↔
  TodoWhere.matches (list_whereClause (User.id user) q) t = true ∧ t ∈ todos db.
Proof.
  unfold list_rows, todo_findMany.
  by rewrite merge_sort_Permutation, list_elem_of_filter.
Qed.

(** Without a search text the where clause keeps the caller's scope:
    every row listed is one the caller created or is assigned to, and
    a row of a table with unique ids is listed once. *)
Lemma list_without_search_accessible db user q :
  truthy (q_search q) = None →
  (∀ t, t ∈ list_rows db user q → canAccess user t = true) ∧
  (NoDup (Todo.id <$> todos db) → NoDup (list_rows db user q)).
Proof.
  intros Hsearch. split.
  - intros t Ht. apply list_rows_elem in Ht as [Hm _].
    apply canAccess_spec. revert Hm.
    unfold list_whereClause. rewrite Hsearch.
    destruct (truthy (q_status q)) as [s|]; [destruct (parseStatus s)|];
      repeat case_decide; unfold TodoWhere.matches; cbn -[existsb accessOR];
      rewrite ?andb_true_r, ?andb_true_iff, ?bool_decide_eq_true, ?accessOR_holds;
      intuition congruence.
  - intros Hnd. unfold list_rows. rewrite merge_sort_Permutation.
    apply (NoDup_fmap_1 Todo.id).
    apply (sublist_NoDup _ (Todo.id <$> todos db)); [done|].
    apply fmap_sublist, sublist_filter.
Qed.

(** With the default scope and no other filter, the rows listed are
    exactly the rows the caller can access. *)
Lemma list_scope_all db user t :
  t ∈ list_rows db user (mkQuery None None None) ↔
  t ∈ todos db ∧ canAccess user t = true.
Proof. rewrite list_rows_elem. unfold canAccess. cbn -[TodoWhere.matches]. tauto. Qed.

(** The scopes [assigned] and [created] sit under keys of their own and
    survive a search: every row listed is the caller's. *)
Lemma list_scoped_accessible db user q :
  q_type q = Some "assigned" ∨ q_type q = Some "created" →
  ∀ t, t ∈ list_rows db user q → canAccess user t = true.
Proof.
  intros Htype t Ht. apply list_rows_elem in Ht as [Hm _].
  apply canAccess_spec. revert Hm. unfold list_whereClause.
  destruct Htype as [Htype|Htype]; rewrite Htype;
    [rewrite decide_True by done
    |rewrite decide_False, decide_True by done];
    (destruct (truthy (q_status q)) as [s|]; [destruct (parseStatus s)|]);
    destruct (truthy (q_search q));
    unfold TodoWhere.matches; cbn -[existsb];
    rewrite ?andb_true_r, ?andb_true_iff, ?bool_decide_eq_true;
    intuition congruence.
Qed.

(** With the default scope, a search text replaces the [OR] key that
    held the caller's scope: the clause no longer mentions the caller. *)
Lemma list_search_overwrites_scope userId q search :
  q_type q ≠ Some "assigned" → q_type q ≠ Some "created" →
  truthy (q_search q) = Some search →
  TodoWhere.OR (list_whereClause userId q)
    = Some [TodoWhere.title_contains search; TodoWhere.description_contains search] ∧
  TodoWhere.assignedToId (list_whereClause userId q) = None ∧
  TodoWhere.createdById (list_whereClause userId q) = None.
Proof.
  intros H1 H2 Hs. unfold list_whereClause. rewrite Hs, !decide_False by done.
  by destruct (truthy (q_status q)) as [s|]; [destruct (parseStatus s)|].
Qed.

(** C3, at a failing input.  Carol neither created the sample todo
    "Buy Milk" nor is assigned to it, and her search for "milk" with
    the default scope lists it. *)
Theorem list_search_returns_inaccessible_todo :
  canAccess Sample.carol Sample.milk = false ∧
  list_rows Sample.db Sample.carol (mkQuery None None (Some "milk")) = [Sample.milk] ∧
  list_todos Sample.db Sample.carol (mkQuery None None (Some "milk"))
    = json 200 (b_todos [include Sample.db Sample.milk]).
Proof. by vm_compute. Qed.

(** C10. A status filter outside the enum raises no validation error:
    the list route answers 200 with exactly what it answers when the
    request carries no status filter. *)
Theorem list_invalid_status_ignored db user type status search :
  status ≠ "PENDING" → status ≠ "IN_PROGRESS" → status ≠ "COMPLETED" →
  list_todos db user (mkQuery type (Some status) search)
    = list_todos db user (mkQuery type None search) ∧
  ∃ rows, list_todos db user (mkQuery type (Some status) search) = json 200 (b_todos rows).
Proof.
  intros H1 H2 H3. split; [|by eexists].
  unfold list_todos, list_rows, list_whereClause. cbn.
  destruct status as [|c s]; [done|]. cbn.
  by rewrite (parseStatus_None _ H1 H2 H3).
Qed.

Lemma list_invalid_status_ignored_witness :
  list_todos Sample.db Sample.alice (mkQuery None (Some "DONE") None)
    = list_todos Sample.db Sample.alice (mkQuery None None None) ∧
  ∃ rows, list_todos Sample.db Sample.alice (mkQuery None (Some "DONE") None)
          = json 200 (b_todos rows).
Proof.
  apply (list_invalid_status_ignored Sample.db Sample.alice None "DONE" None).
  - by_compute.
  - by_compute.
  - by_compute.
Defined.


(** ** Deleting a todo *)

Lemma matches_id_creator userId id row :
  TodoWhere.matches
    (TodoWhere.set_createdById userId (TodoWhere.set_id id TodoWhere.empty)) row = true ↔
  Todo.id row = id ∧ Todo.createdById row = userId.
Proof.
  unfold TodoWhere.matches. cbn.
  by rewrite !andb_true_r, andb_true_iff, !bool_decide_eq_true.
Qed.

Lemma findFirst_id_creator db user T :
  NoDup (Todo.id <$> todos db) → T ∈ todos db →
  todo_findFirst db
    (TodoWhere.set_createdById (User.id user)
       (TodoWhere.set_id (Todo.id T) TodoWhere.empty))
  = if decide (User.id user = Todo.createdById T) then Some T else None.
Proof.
  intros Hnd HT. unfold todo_findFirst, todo_findMany.
  rewrite (head_filter_unique Todo.id _ _ T Hnd HT).
  - destruct (decide (User.id user = Todo.createdById T)) as [Heq|Hne].
    + rewrite decide_True; [done|]. by apply matches_id_creator.
    + rewrite decide_False; [done|]. intros Hm.
      apply matches_id_creator in Hm as [_ Hm]. congruence.
  - intros y Hy. by apply matches_id_creator in Hy as [? _].
Qed.

Lemma NoDup_fmap_eq {A} (f : A → string) (l : list A) x y :
  NoDup (f <$> l) → x ∈ l → y ∈ l → f x = f y → x = y.
Proof.
  intros Hnd Hx Hy Hf. induction l as [|z l IH]; [by apply elem_of_nil in Hx|].
  rewrite fmap_cons in Hnd. apply NoDup_cons in Hnd as [Hz Hnd].
  apply elem_of_cons in Hx as [->|Hx]; apply elem_of_cons in Hy as [->|Hy]; auto.
  - destruct Hz. rewrite Hf. by apply list_elem_of_fmap_2.
  - destruct Hz. rewrite <- Hf. by apply list_elem_of_fmap_2.
Qed.

(** C4 does not hold as stated.  Bob is assigned to the sample todo
    "t1" and did not create it; his delete request is answered with the
    merged 404, not with a 403.  When Alice, who created "t1", deletes
    it under a cascading schema, the record of the attached file goes
    with the row, while the object stored for that file is still in the
    upload directory.  And the routes do not fix the schema: under one
    whose file relation restricts, Alice's request for her own todo
    fails as long as the file record is attached. *)
Lemma delete_404_and_stored_object_kept :
  (Todo.assignedToId Sample.milk = User.id Sample.bob ∧
   Todo.createdById Sample.milk ≠ User.id Sample.bob ∧
   delete_todo Sample.cascading Sample.db Sample.bob "t1"
     = (json 404 (b_error "Todo not found or access denied"), Sample.db) ∧
   ¬ AccessDenied (delete_todo Sample.cascading Sample.db Sample.bob "t1").1) ∧
  (Todo.createdById Sample.milk = User.id Sample.alice ∧
   Sample.notes ∈ files Sample.db ∧ File.todoId Sample.notes = "t1" ∧
   Sample.uploads !! File.filename Sample.notes = Some "abc" ∧
   delete_todo_fs Sample.cascading Sample.db Sample.uploads Sample.alice "t1"
     = (json 200 (b_message "Todo deleted successfully"),
        mkDB (users Sample.db) [Sample.report] [], Sample.uploads)) ∧
  (delete_todo Sample.restricting Sample.db Sample.alice "t1"
     = (next "prisma.todo.delete", Sample.db) ∧
   ¬ is_success (delete_todo Sample.restricting Sample.db Sample.alice "t1").1).
Proof.
  split; [|split].
  - repeat split; [done|].
    intros [msg Hmsg]. vm_compute in Hmsg. discriminate.
  - repeat split; by_compute.
  - split; [done|]. intros Hok. vm_compute in Hok. done.
Qed.

(** C4, amended.  DELETE /todos/:id succeeds only for the caller who
    created the todo, and for that caller exactly when the database
    lets the row go: always under a schema whose file relation
    cascades, and under one that restricts when no file row is
    attached.  Any other caller, the assignee included, gets the merged
    404 "not found or access denied", never a 403, and a request that
    does not succeed deletes nothing.  On success the todo row is gone,
    no file row attached to it remains, and every other row stays. *)
Theorem delete_todo_creator_only sch db (U : User.t) (T : Todo.t) :
  NoDup (Todo.id <$> todos db) → T ∈ todos db →
  (is_success (delete_todo sch db U (Todo.id T)).1 ↔
     User.id U = Todo.createdById T ∧
     (file_todo_onDelete sch = Cascade ∨
      ∀ f, f ∈ files db → File.todoId f ≠ Todo.id T)) ∧
  (User.id U ≠ Todo.createdById T →
     NotFoundOrForbidden (delete_todo sch db U (Todo.id T)).1 ∧
     (delete_todo sch db U (Todo.id T)).2 = db) ∧
  ¬ AccessDenied (delete_todo sch db U (Todo.id T)).1 ∧
  (¬ is_success (delete_todo sch db U (Todo.id T)).1 →
     (delete_todo sch db U (Todo.id T)).2 = db) ∧
  (is_success (delete_todo sch db U (Todo.id T)).1 →
     (∀ t, t ∈ todos (delete_todo sch db U (Todo.id T)).2 ↔ t ∈ todos db ∧ t ≠ T) ∧
     (∀ f, f ∈ files (delete_todo sch db U (Todo.id T)).2 ↔
             f ∈ files db ∧ File.todoId f ≠ Todo.id T) ∧
     users (delete_todo sch db U (Todo.id T)).2 = users db).
Proof.
  intros Hnd HT. unfold delete_todo, todo_delete.
  rewrite (findFirst_id_creator db U T Hnd HT), (findFirst_id db T Hnd HT).
  assert (Hrows : ∀ t, t ∈ filter (λ row, Todo.id row ≠ Todo.id T) (todos db)
                       ↔ t ∈ todos db ∧ t ≠ T).
  { intros t. rewrite list_elem_of_filter. split.
    - intros [Hid Ht]. split; [done|]. congruence.
    - intros [Ht Hne]. split; [|done].
      intros Hid. apply Hne. by apply (NoDup_fmap_eq Todo.id (todos db)). }
  destruct (decide (User.id U = Todo.createdById T)) as [Heq|Hne]; cbn.
  - destruct (file_todo_onDelete sch); cbn.
    + split; [split; [intros _; split; [done|by left]|lia]|].
      split; [done|]. split; [by intros [msg ?]|]. split; [lia|]. intros _.
      split; [done|]. split; [|done].
      intros f. rewrite list_elem_of_filter. tauto.
    + destruct (decide (Exists _ (files db))) as [Hex|Hno]; cbn.
      * split.
        { split; [done|]. intros [_ [?|Hall]]; [done|].
          apply Exists_exists in Hex as (f & Hf & Hid). by destruct (Hall f Hf). }
        split; [done|]. split; [by intros [msg ?]|]. done.
      * assert (Hall : ∀ f, f ∈ files db → File.todoId f ≠ Todo.id T).
        { intros f Hf Hid. apply Hno, Exists_exists. eauto. }
        split; [split; [intros _; split; [done|by right]|lia]|].
        split; [done|]. split; [by intros [msg ?]|]. split; [lia|]. intros _.
        split; [done|]. split; [|done].
        intros f. split; [intros Hf; split; [done|by apply Hall]|by intros [? _]].
  - split; [split; [lia|by intros [? _]]|]. split; [done|].
    split; [by intros [msg ?]|]. split; [done|lia].
Qed.

Lemma delete_todo_creator_only_witness :
  (is_success (delete_todo Sample.cascading Sample.db Sample.alice (Todo.id Sample.milk)).1
     ↔ User.id Sample.alice = Todo.createdById Sample.milk ∧
       (file_todo_onDelete Sample.cascading = Cascade ∨
        ∀ f, f ∈ files Sample.db → File.todoId f ≠ Todo.id Sample.milk)) ∧
  (User.id Sample.alice ≠ Todo.createdById Sample.milk →
     NotFoundOrForbidden
       (delete_todo Sample.cascading Sample.db Sample.alice (Todo.id Sample.milk)).1 ∧
     (delete_todo Sample.cascading Sample.db Sample.alice (Todo.id Sample.milk)).2
       = Sample.db) ∧
  ¬ AccessDenied
      (delete_todo Sample.cascading Sample.db Sample.alice (Todo.id Sample.milk)).1 ∧
  (¬ is_success
       (delete_todo Sample.cascading Sample.db Sample.alice (Todo.id Sample.milk)).1 →
     (delete_todo Sample.cascading Sample.db Sample.alice (Todo.id Sample.milk)).2
       = Sample.db) ∧
  (is_success
     (delete_todo Sample.cascading Sample.db Sample.alice (Todo.id Sample.milk)).1 →
     (∀ t, t ∈ todos (delete_todo Sample.cascading Sample.db Sample.alice
                         (Todo.id Sample.milk)).2 ↔
             t ∈ todos Sample.db ∧ t ≠ Sample.milk) ∧
     (∀ f, f ∈ files (delete_todo Sample.cascading Sample.db Sample.alice
                         (Todo.id Sample.milk)).2 ↔
             f ∈ files Sample.db ∧ File.todoId f ≠ Todo.id Sample.milk) ∧
     users (delete_todo Sample.cascading Sample.db Sample.alice (Todo.id Sample.milk)).2
       = users Sample.db).
Proof.
  apply (delete_todo_creator_only Sample.cascading Sample.db Sample.alice Sample.milk).
  - by_compute.
  - by_compute.
Defined.


(** ** Assignee validation *)

Lemma user_findUnique_inactive db a :
  ¬ active_user db a →
  user_findUnique db a = None ∨
  ∃ u, user_findUnique db a = Some u ∧ User.status u = DISABLED.
Proof.
  intros Hno. unfold user_findUnique.
  destruct (filter (λ u, User.id u = a) (users db)) as [|u k] eqn:Hf; [by left|].
  right. exists u. split; [done|].
  assert (Hu : u ∈ filter (λ u, User.id u = a) (users db)) by (rewrite Hf; left).
  apply list_elem_of_filter in Hu as [Hid Hu].
  destruct (User.status u) eqn:Hst; [|done].
  destruct Hno. apply Exists_exists. by exists u.
Qed.

Lemma findFirst_access_Some db user id :
  (∃ T, T ∈ todos db ∧ Todo.id T = id ∧ canAccess user T = true) →
  is_Some (todo_findFirst db
             (TodoWhere.set_OR (accessOR (User.id user))
                (TodoWhere.set_id id TodoWhere.empty))).
Proof.
  intros (T & HT & Hid & Hacc). apply not_eq_None_Some. intros Hnone.
  unfold todo_findFirst, todo_findMany in Hnone.
  rewrite head_filter_None in Hnone. apply (Hnone T HT).
  apply matches_id_access. apply canAccess_spec in Hacc. intuition congruence.
Qed.

Lemma findFirst_access_None db user id :
  ¬ (∃ T, T ∈ todos db ∧ Todo.id T = id ∧ canAccess user T = true) →
  todo_findFirst db
    (TodoWhere.set_OR (accessOR (User.id user))
       (TodoWhere.set_id id TodoWhere.empty)) = None.
Proof.
  intros Hno. unfold todo_findFirst, todo_findMany.
  apply head_filter_None. intros T HT Hm. apply Hno.
  apply matches_id_access in Hm as [Hid Hm]. exists T. repeat split; [done..|].
  apply canAccess_spec. intuition congruence.
Qed.

(** C5 for every update request does not hold: Carol has no access to
    the sample todo "t1"; her update names an assignee that does not
    exist and is answered with the merged 404, not with the
    invalid-assignee 400. *)
Lemma update_without_access_not_InvalidAssignee :
  ¬ active_user Sample.db "ghost" ∧
  update_todo Sample.cascading Sample.env Sample.db Sample.carol "t1"
    (mkUpdate None None None None None (Some "ghost"))
    = (json 404 (b_error "Todo not found or access denied"), Sample.db) ∧
  ¬ InvalidAssignee
      (update_todo Sample.cascading Sample.env Sample.db Sample.carol "t1"
         (mkUpdate None None None None None (Some "ghost"))).1.
Proof.
  split; [by_compute|]. split; [done|].
  intros Hinv. vm_compute in Hinv. discriminate.
Qed.

(** C5, amended.  When the assignee id of the request does not resolve
    to an active user, no request changes the database.  A create
    request reaching the handler is answered with the invalid-assignee
    400; so is an update by a caller with access to the todo, while an
    update by a caller without access is answered with the merged 404. *)
Theorem invalid_assignee_rejected sch env db user a :
  ¬ active_user db a →
  (∀ body reqFiles, c_assignedToId body = a →
     InvalidAssignee (create_todo sch env db user body reqFiles).1 ∧
     (create_todo sch env db user body reqFiles).2 = db) ∧
  (∀ id body, u_assignedToId body = Some a →
     (update_todo sch env db user id body).2 = db ∧
     ((∃ T, T ∈ todos db ∧ Todo.id T = id ∧ canAccess user T = true) →
        InvalidAssignee (update_todo sch env db user id body).1) ∧
     (¬ (∃ T, T ∈ todos db ∧ Todo.id T = id ∧ canAccess user T = true) →
        NotFoundOrForbidden (update_todo sch env db user id body).1)).
Proof.
  intros Hno. apply user_findUnique_inactive in Hno. split.
  - intros body reqFiles <-. unfold create_todo.
    destruct Hno as [->|(u & -> & Hst)]; [done|].
    by rewrite decide_True.
  - intros id body Ha.
    assert (Hupd : ∀ existing,
      todo_findFirst db
        (TodoWhere.set_OR (accessOR (User.id user))
           (TodoWhere.set_id id TodoWhere.empty)) = Some existing →
      update_todo sch env db user id body
      = (json 400 (b_error "Assigned user not found or disabled"), db)).
    { intros existing Hex. unfold update_todo. rewrite Hex, Ha.
      destruct Hno as [->|(u & -> & Hst)]; [done|].
      by rewrite decide_True. }
    split; [|split].
    + destruct (todo_findFirst db
                  (TodoWhere.set_OR (accessOR (User.id user))
                     (TodoWhere.set_id id TodoWhere.empty))) as [existing|] eqn:Hex.
      * by rewrite (Hupd existing).
      * unfold update_todo. by rewrite Hex.
    + intros Hacc. destruct (findFirst_access_Some db user id Hacc) as [existing Hex].
      by rewrite (Hupd existing Hex).
    + intros Hacc. unfold update_todo.
      by rewrite (findFirst_access_None db user id Hacc).
Qed.

Lemma invalid_assignee_rejected_witness :
  (∀ body reqFiles, c_assignedToId body = "u4" →
     InvalidAssignee
       (create_todo Sample.cascading Sample.env Sample.db Sample.bob body reqFiles).1 ∧
     (create_todo Sample.cascading Sample.env Sample.db Sample.bob body reqFiles).2
       = Sample.db) ∧
  (∀ id body, u_assignedToId body = Some "u4" →
     (update_todo Sample.cascading Sample.env Sample.db Sample.bob id body).2 = Sample.db ∧
     ((∃ T, T ∈ todos Sample.db ∧ Todo.id T = id ∧ canAccess Sample.bob T = true) →
        InvalidAssignee (update_todo Sample.cascading Sample.env Sample.db Sample.bob id body).1) ∧
     (¬ (∃ T, T ∈ todos Sample.db ∧ Todo.id T = id ∧ canAccess Sample.bob T = true) →
        NotFoundOrForbidden (update_todo Sample.cascading Sample.env Sample.db Sample.bob id body).1)).
Proof.
  apply (invalid_assignee_rejected Sample.cascading Sample.env Sample.db Sample.bob "u4").
  by_compute.
Defined.


(** ** Updating a todo *)

Lemma apply_frame sch data now row row' :
  TodoData.apply sch data now row = Some row' →
  Todo.id row' = Todo.id row ∧
  Todo.createdById row' = Todo.createdById row ∧
  Todo.createdAt row' = Todo.createdAt row ∧
  Todo.updatedAt row' = (if updatedAt_auto sch then now else Todo.updatedAt row) ∧
  Todo.title row' = default (Todo.title row) (TodoData.title data) ∧
  (TodoData.description data = None → Todo.description row' = Todo.description row) ∧
  (TodoData.status data = None → Todo.status row' = Todo.status row) ∧
  Todo.dueDate row' = default (Todo.dueDate row) (TodoData.dueDate data) ∧
  Todo.order row' = default (Todo.order row) (TodoData.order data) ∧
  Todo.assignedToId row' = default (Todo.assignedToId row) (TodoData.assignedToId data).
Proof.
  unfold TodoData.apply. intros Happ.
  destruct (TodoData.status data) as [s|] eqn:Hs;
    [destruct (parseStatus s); [|done]|];
    (destruct (TodoData.order data) as [o|] eqn:Ho; [case_decide; [|done]|]);
    injection Happ as <-; cbn; repeat split; try done; by intros ->.
Qed.

Lemma Forall2_preserves_ids (g : Todo.t → option Todo.t) (l k : list Todo.t) :
  (∀ x y, g x = Some y → Todo.id y = Todo.id x) →
  Forall2 (λ x y, g x = Some y) l k →
  Todo.id <$> k = Todo.id <$> l.
Proof.
  intros Hg Hlk. induction Hlk as [|x y l k Hxy _ IH]; [done|].
  by rewrite !fmap_cons, IH, (Hg x y Hxy).
Qed.

Section UpdateRow.
Context (sch : Schema) (env : Env) (db db' : DB) (data : TodoData.t) (T : Todo.t).
Hypothesis todo_ids_unique : NoDup (Todo.id <$> todos db).
Hypothesis T_in_db : T ∈ todos db.
Hypothesis updated : todo_update sch env db (Todo.id T) data = Some db'.

Let f (row : Todo.t) : option Todo.t :=
  if decide (Todo.id row = Todo.id T) then TodoData.apply sch data (now env) row
  else Some row.

Lemma todo_update_rows :
  Forall2 (λ row row', f row = Some row') (todos db) (todos db') ∧
  users db' = users db ∧ files db' = files db.
Proof.
  revert updated. unfold todo_update. rewrite (findFirst_id db T) by done.
  destruct (mapM _ (todos db)) as [rows|] eqn:Hrows; [|done].
  cbn. intros [= <-]. cbn. by apply mapM_Some in Hrows.
Qed.

(** The row with the id of the request is replaced by its patched
    version, and no other row changes. *)
Lemma todo_update_row :
  ∃ T', TodoData.apply sch data (now env) T = Some T' ∧
        T' ∈ todos db' ∧
        (∀ t, t ∈ todos db' → Todo.id t = Todo.id T → t = T') ∧
        (∀ t, t ∈ todos db → t ≠ T → t ∈ todos db') ∧
        Todo.id <$> todos db' = Todo.id <$> todos db.
Proof.
  destruct todo_update_rows as (Hrows & _ & _).
  pose proof T_in_db as HT. apply list_elem_of_lookup in HT as [i Hi].
  destruct (Forall2_lookup_l _ _ _ i T Hrows Hi) as (T' & Hi' & HfT).
  unfold f in HfT. rewrite decide_True in HfT by done.
  exists T'. split; [done|]. split; [by eapply list_elem_of_lookup_2|].
  split; [|split].
  - intros t Ht Hid. apply list_elem_of_lookup in Ht as [j Hj].
    destruct (Forall2_lookup_r _ _ _ j t Hrows Hj) as (x & Hx & Hfx).
    unfold f in Hfx. destruct (decide (Todo.id x = Todo.id T)) as [Hxid|Hxid].
    + assert (x = T) as ->; [|congruence].
      apply (NoDup_fmap_eq Todo.id (todos db)); [done| |done..].
      by eapply list_elem_of_lookup_2.
    + congruence.
  - intros t Ht Hne. apply list_elem_of_lookup in Ht as [j Hj].
    destruct (Forall2_lookup_l _ _ _ j t Hrows Hj) as (t' & Hj' & Hft).
    unfold f in Hft. rewrite decide_False in Hft.
    + injection Hft as <-. by eapply list_elem_of_lookup_2.
    + intros Hid. apply Hne.
      apply (NoDup_fmap_eq Todo.id (todos db)); [done| |done..].
      by eapply list_elem_of_lookup_2.
  - apply (Forall2_preserves_ids f); [|done].
    intros x y Hxy. unfold f in Hxy. case_decide.
    + by apply apply_frame in Hxy as [-> _].
    + congruence.
Qed.
End UpdateRow.

Lemma todo_update_is_Some sch env db data T :
  NoDup (Todo.id <$> todos db) → T ∈ todos db →
  is_Some (TodoData.apply sch data (now env) T) →
  is_Some (todo_update sch env db (Todo.id T) data).
Proof.
  intros Hnd HT Happ. unfold todo_update. rewrite (findFirst_id db T) by done.
  destruct (mapM _ (todos db)) as [rows|] eqn:Hrows; [by eexists|].
  exfalso. apply eq_None_not_Some in Hrows. apply Hrows, mapM_is_Some.
  apply Forall_forall. intros t Ht. cbn. case_decide as Hid; [|by eexists].
  by rewrite (NoDup_fmap_eq Todo.id (todos db) t T Hnd Ht HT Hid).
Qed.

(** What the update route leaves behind: the database as it was, or
    the one [prisma.todo.update] produces from the fields of the body. *)
Lemma update_todo_result sch env db user T body :
  NoDup (Todo.id <$> todos db) → T ∈ todos db → canAccess user T = true →
  (update_todo sch env db user (Todo.id T) body).2 = db ∨
  ∃ data,
    todo_update sch env db (Todo.id T) data = Some (update_todo sch env db user (Todo.id T) body).2 ∧
    TodoData.title data = u_title body ∧
    TodoData.description data = u_description body ∧
    TodoData.status data = u_status body ∧
    (u_dueDate body = None → TodoData.dueDate data = None) ∧
    TodoData.order data = u_order body ∧
    TodoData.assignedToId data = u_assignedToId body.
Proof.
  intros Hnd HT Hacc. unfold update_todo.
  rewrite (findFirst_id_access db user T Hnd HT), Hacc.
  destruct (u_assignedToId body) as [a|] eqn:Ha.
  - destruct (user_findUnique db a) as [u|]; [|by left].
    case_decide; [by left|].
    match goal with |- context [todo_update sch env db (Todo.id T) ?d] =>
      destruct (todo_update sch env db (Todo.id T) d) as [db'|] eqn:Hupd end;
      [|by left].
    destruct (todo_findFirst db' _); [|by left].
    right. eexists. split; [exact Hupd|]. cbn. repeat split; try done.
    by intros ->.
  - match goal with |- context [todo_update sch env db (Todo.id T) ?d] =>
      destruct (todo_update sch env db (Todo.id T) d) as [db'|] eqn:Hupd end;
      [|by left].
    destruct (todo_findFirst db' _); [|by left].
    right. eexists. split; [exact Hupd|]. cbn. repeat split; try done.
    by intros ->.
Qed.

(** C7. After an update by a caller with access, the todo is still one
    row of the table, and every field the request does not supply has
    the value it had before: title, description, status, due date,
    order and assignee, as well as the creator and creation time. *)
Theorem update_changes_only_supplied_fields sch env db user T body :
  NoDup (Todo.id <$> todos db) → T ∈ todos db → canAccess user T = true →
  ∃ T', T' ∈ todos (update_todo sch env db user (Todo.id T) body).2 ∧
        (∀ t, t ∈ todos (update_todo sch env db user (Todo.id T) body).2 →
              Todo.id t = Todo.id T → t = T') ∧
        Todo.id T' = Todo.id T ∧
        (u_title body = None → Todo.title T' = Todo.title T) ∧
        (u_description body = None → Todo.description T' = Todo.description T) ∧
        (u_status body = None → Todo.status T' = Todo.status T) ∧
        (u_dueDate body = None → Todo.dueDate T' = Todo.dueDate T) ∧
        (u_order body = None → Todo.order T' = Todo.order T) ∧
        (u_assignedToId body = None → Todo.assignedToId T' = Todo.assignedToId T) ∧
        Todo.createdById T' = Todo.createdById T ∧
        Todo.createdAt T' = Todo.createdAt T.
Proof.
  intros Hnd HT Hacc.
  destruct (update_todo_result sch env db user T body Hnd HT Hacc)
    as [->|(data & Hupd & Ht & Hd & Hs & Hdue & Ho & Ha)].
  - exists T. repeat split; try done.
    intros t Ht Hid. by apply (NoDup_fmap_eq Todo.id (todos db)).
  - destruct (todo_update_row sch env db _ data T Hnd HT Hupd)
      as (T' & Happ & HT' & Huniq & _).
    apply apply_frame in Happ
      as (Hid & Hcb & Hca & _ & Htitle & Hdesc & Hstatus & Hdate & Horder & Hassg).
    exists T'. split; [done|]. split; [done|]. split; [done|].
    rewrite Htitle, Hdate, Horder, Hassg, Ht, Ho, Ha.
    repeat split; try done.
    + by intros ->.
    + intros Hb. apply Hdesc. by rewrite Hd.
    + intros Hb. apply Hstatus. by rewrite Hs.
    + intros Hb. by rewrite (Hdue Hb).
    + by intros ->.
    + by intros ->.
Qed.

Lemma update_changes_only_supplied_fields_witness :
  ∃ T', T' ∈ todos (update_todo Sample.cascading Sample.env Sample.db Sample.bob (Todo.id Sample.milk)
                      (mkUpdate None None (Some "IN_PROGRESS") None None None)).2 ∧
        (∀ t, t ∈ todos (update_todo Sample.cascading Sample.env Sample.db Sample.bob (Todo.id Sample.milk)
                           (mkUpdate None None (Some "IN_PROGRESS") None None None)).2 →
              Todo.id t = Todo.id Sample.milk → t = T') ∧
        Todo.id T' = Todo.id Sample.milk ∧
        (@None string = None → Todo.title T' = Todo.title Sample.milk) ∧
        (@None string = None → Todo.description T' = Todo.description Sample.milk) ∧
        (Some "IN_PROGRESS" = None → Todo.status T' = Todo.status Sample.milk) ∧
        (@None string = None → Todo.dueDate T' = Todo.dueDate Sample.milk) ∧
        (@None Z = None → Todo.order T' = Todo.order Sample.milk) ∧
        (@None string = None → Todo.assignedToId T' = Todo.assignedToId Sample.milk) ∧
        Todo.createdById T' = Todo.createdById Sample.milk ∧
        Todo.createdAt T' = Todo.createdAt Sample.milk.
Proof.
  apply (update_changes_only_supplied_fields Sample.cascading Sample.env Sample.db Sample.bob Sample.milk
           (mkUpdate None None (Some "IN_PROGRESS") None None None)).
  - by_compute.
  - by_compute.
  - reflexivity.
Defined.

(** The scenario of the specification: an update that supplies only a
    valid status succeeds, and the stored row differs from the old one
    in its status and its update time alone. *)
Lemma update_status_only sch env db user T s st :
  NoDup (Todo.id <$> todos db) → T ∈ todos db → canAccess user T = true →
  parseStatus s = Some st →
  ∃ db' T',
    update_todo sch env db user (Todo.id T) (mkUpdate None None (Some s) None None None)
      = (json 200 (b_message_todo "Todo updated successfully" (include db' T')), db') ∧
    T' = Todo.mk (Todo.id T) (Todo.title T) (Todo.description T) st (Todo.dueDate T)
           (Todo.order T) (Todo.createdAt T)
           (if updatedAt_auto sch then now env else Todo.updatedAt T)
           (Todo.createdById T) (Todo.assignedToId T) ∧
    T' ∈ todos db' ∧
    (∀ t, t ∈ todos db → t ≠ T → t ∈ todos db').
Proof.
  intros Hnd HT Hacc Hs. unfold update_todo.
  rewrite (findFirst_id_access db user T Hnd HT), Hacc. cbn.
  set (data := TodoData.mk None None (Some s) None None None).
  assert (Happ : TodoData.apply sch data (now env) T
                 = Some (Todo.mk (Todo.id T) (Todo.title T) (Todo.description T) st
                           (Todo.dueDate T) (Todo.order T) (Todo.createdAt T)
                           (if updatedAt_auto sch then now env else Todo.updatedAt T)
                           (Todo.createdById T) (Todo.assignedToId T))).
  { unfold TodoData.apply, data. cbn. by rewrite Hs. }
  destruct (todo_update_is_Some sch env db data T Hnd HT) as [db' Hupd]; [by eexists|].
  rewrite Hupd.
  destruct (todo_update_row sch env db db' data T Hnd HT Hupd)
    as (T' & Happ' & HT' & _ & Hothers & Hids).
  rewrite Happ in Happ'. injection Happ' as <-.
  match goal with HT' : ?row ∈ todos db' |- _ =>
    pose proof (findFirst_id db' row) as Hfind end.
  cbn in Hfind. rewrite Hfind; [|by rewrite Hids|done].
  by eexists _, _.
Qed.


(** ** Downloading a file *)

Lemma file_findFirst_access db user f t :
  NoDup (File.id <$> files db) → NoDup (Todo.id <$> todos db) →
  f ∈ files db → t ∈ todos db → Todo.id t = File.todoId f →
  file_findFirst db
    (FileWhere.mk (Some (File.id f))
       (Some (TodoWhere.set_OR (accessOR (User.id user)) TodoWhere.empty)))
  = if canAccess user t then Some f else None.
Proof.
  intros Hfiles Htodos Hf Ht Hid. unfold file_findFirst.
  rewrite (head_filter_unique File.id _ _ f Hfiles Hf).
  - unfold FileWhere.matches. cbn -[TodoWhere.matches].
    rewrite <- Hid, (findFirst_id db t Htodos Ht), bool_decide_eq_true_2 by done.
    cbn -[TodoWhere.matches]. fold (canAccess user t).
    by destruct (canAccess user t).
  - unfold FileWhere.matches. cbn -[TodoWhere.matches]. intros y Hy.
    apply andb_true_iff in Hy as [Hy _]. by apply bool_decide_eq_true in Hy.
Qed.

(** C8. A caller with access to the parent todo of a file whose record
    exists while its stored object is missing from the upload directory
    gets a 404 "File not found on disk", not an empty download. *)
Theorem download_missing_storage_object db disk user f t :
  NoDup (File.id <$> files db) → NoDup (Todo.id <$> todos db) →
  f ∈ files db → t ∈ todos db → Todo.id t = File.todoId f →
  canAccess user t = true →
  disk !! File.filename f = None →
  download_file db disk user (File.id f) = json 404 (b_error "File not found on disk") ∧
  NotFound (download_file db disk user (File.id f)).
Proof.
  intros Hfiles Htodos Hf Ht Hid Hacc Hdisk.
  assert (Hdl : download_file db disk user (File.id f)
                = json 404 (b_error "File not found on disk")).
  { unfold download_file.
    by rewrite (file_findFirst_access db user f t Hfiles Htodos Hf Ht Hid), Hacc, Hdisk. }
  split; [done|]. rewrite Hdl. by eexists.
Qed.

Lemma download_missing_storage_object_witness :
  download_file Sample.db ∅ Sample.bob (File.id Sample.notes)
    = json 404 (b_error "File not found on disk") ∧
  NotFound (download_file Sample.db ∅ Sample.bob (File.id Sample.notes)).
Proof.
  apply (download_missing_storage_object Sample.db ∅ Sample.bob Sample.notes Sample.milk).
  - by_compute.
  - by_compute.
  - by_compute.
  - by_compute.
  - reflexivity.
  - reflexivity.
  - reflexivity.
Defined.




(** ** Uploading a batch *)

Section Cleanup.
Implicit Types (disk base : Disk) (uploaded : list Multer.File).

Let remove (f : Multer.File) (d : Disk) : Disk := delete (Multer.filename f) d.

Lemma cleanup_snoc uploaded f disk :
  foldr remove disk (uploaded ++ [f]) = foldr remove (remove f disk) uploaded.
Proof. by rewrite foldr_app. Qed.

Lemma cleanup_mono uploaded disk base :
  disk ⊆ base → foldr remove disk uploaded ⊆ foldr remove base uploaded.
Proof.
  intros Hsub. induction uploaded as [|f l IH]; [done|]. by apply delete_mono.
Qed.

Lemma cleanup_delete uploaded name disk :
  foldr remove (delete name disk) uploaded = delete name (foldr remove disk uploaded).
Proof.
  induction uploaded as [|f l IH]; [done|]. cbn. unfold remove at 1 3.
  by rewrite IH, delete_delete.
Qed.

(** Writing a file and recording it keeps what a cleanup leaves below
    what it left before. *)
Lemma cleanup_written uploaded disk p content :
  foldr remove (<[storage_filename p := content]> disk) (uploaded ++ [stored p])
  = delete (storage_filename p) (foldr remove disk uploaded).
Proof.
  rewrite cleanup_snoc. unfold remove at 2. cbn.
  by rewrite delete_insert_eq, cleanup_delete.
Qed.

Lemma multer_array_error_subseteq limit parts :
  ∀ left disk uploaded base disk' err,
    foldr remove disk uploaded ⊆ base →
    multer_array limit left disk uploaded parts = (disk', inl err) →
    disk' ⊆ base.
Proof.
  induction parts as [|p rest IH]; intros left disk uploaded base disk' err Hinv; cbn.
  - done.
  - assert (Hw : ∀ content,
      foldr remove (<[storage_filename p := content]> disk) (uploaded ++ [stored p])
        ⊆ base).
    { intros content. rewrite cleanup_written.
      etrans; [apply delete_subseteq|done]. }
    destruct left as [|left']; [by intros [= <- _]|].
    repeat case_decide; try (by intros [= <- _]).
    + destruct (fileFilter _ _); cbn; [|by intros [= <- _]].
      intros [= <- _]. apply Hw.
    + destruct (fileFilter _ _); cbn; [|by intros [= <- _]].
      intros Hrest. by apply (IH _ _ _ _ _ _ (Hw _) Hrest).
Qed.

Lemma multer_array_error_fresh limit parts :
  ∀ left disk uploaded base disk' err,
    (∀ p, p ∈ parts → base !! storage_filename p = None) →
    foldr remove disk uploaded = base →
    multer_array limit left disk uploaded parts = (disk', inl err) →
    disk' = base.
Proof.
  induction parts as [|p rest IH];
    intros left disk uploaded base disk' err Hfresh Hinv; cbn.
  - done.
  - assert (Hw : ∀ content,
      foldr remove (<[storage_filename p := content]> disk) (uploaded ++ [stored p])
        = base).
    { intros content. rewrite cleanup_written, Hinv.
      apply delete_id, Hfresh. left. }
    destruct left as [|left']; [by intros [= <- _]|].
    repeat case_decide; try (by intros [= <- _]).
    + destruct (fileFilter _ _); cbn; [|by intros [= <- _]].
      intros [= <- _]. apply Hw.
    + destruct (fileFilter _ _); cbn; [|by intros [= <- _]].
      intros Hrest. apply (IH _ _ _ _ _ _ ltac:(intros; apply Hfresh; by right) (Hw _) Hrest).
Qed.
End Cleanup.

(** A part that fails validation aborts the batch: the route handler
    never receives [req.files]. *)
Lemma multer_array_invalid limit parts :
  ∀ left disk uploaded,
    (∃ p, p ∈ parts ∧
          (limit < part_size p ∨ fileFilter (p_originalname p) (p_mimetype p) = false)) →
    ∃ disk' err, multer_array limit left disk uploaded parts = (disk', inl err).
Proof.
  induction parts as [|p rest IH]; intros left disk uploaded (q & Hq & Hbad).
  - by apply elem_of_nil in Hq.
  - cbn. destruct left as [|left']; [by eexists _, _|].
    case_decide; [by eexists _, _|].
    destruct (fileFilter (p_originalname p) (p_mimetype p)) eqn:Hfilter; cbn;
      [|by eexists _, _].
    case_decide as Hsize; [by eexists _, _|].
    apply IH. exists q. split; [|done].
    apply elem_of_cons in Hq as [->|Hq]; [|done].
    destruct Hbad as [Hbad|Hbad]; [lia|congruence].
Qed.

(** C6. When a part of the batch is over the size limit or rejected by
    the file filter, the upload request ends in an error, the database
    is the one before the request (no file record is created), and the
    upload directory holds nothing it did not hold before; when the
    generated names are new to the directory, it is left as it was. *)
Theorem upload_batch_all_or_nothing MAX_FILE_SIZE env db disk user todoId parts :
  (∃ p, p ∈ parts ∧
        (fileSize MAX_FILE_SIZE < part_size p ∨
         fileFilter (p_originalname p) (p_mimetype p) = false)) →
  ∃ err disk',
    upload_files MAX_FILE_SIZE env db disk user todoId parts = (next err, db, disk') ∧
    disk' ⊆ disk ∧
    ((∀ p, p ∈ parts → disk !! storage_filename p = None) → disk' = disk).
Proof.
  intros Hbad. unfold upload_files.
  destruct (multer_array_invalid (fileSize MAX_FILE_SIZE) parts 5%nat disk [] Hbad)
    as (disk' & err & Hm).
  rewrite Hm. exists err, disk'. split; [done|]. split.
  - by apply (multer_array_error_subseteq (fileSize MAX_FILE_SIZE) parts 5%nat disk []
                disk disk' err).
  - intros Hfresh.
    by apply (multer_array_error_fresh (fileSize MAX_FILE_SIZE) parts 5%nat disk []
                disk disk' err).
Qed.

Lemma upload_batch_all_or_nothing_witness :
  ∃ err disk',
    upload_files (Some 4) Sample.env Sample.db ∅ Sample.alice "t1" Sample.batch
      = (next err, Sample.db, disk') ∧
    disk' ⊆ ∅ ∧
    ((∀ p, p ∈ Sample.batch → (∅ : Disk) !! storage_filename p = None) → disk' = ∅).
Proof.
  apply (upload_batch_all_or_nothing (Some 4) Sample.env Sample.db ∅ Sample.alice "t1"
           Sample.batch).
  exists (mkPart "files" "b.txt" "text/plain" "abcdef" "1700000000002-2").
  split; [by_compute|]. left. by_compute.
Defined.


(** * Further properties of the routes *)

(** ** The todos page *)

#[local] Set Warnings "-clear-no-such-hyp".

(** What the where clause of the list route demands of a row. *)
Lemma list_whereClause_matches userId q t :
  TodoWhere.matches (list_whereClause userId q) t = true ↔
  (q_type q = Some "assigned" → Todo.assignedToId t = userId) ∧
  (q_type q ≠ Some "assigned" → q_type q = Some "created" →
     Todo.createdById t = userId) ∧
  (∀ s st, truthy (q_status q) = Some s → parseStatus s = Some st →
     Todo.status t = st) ∧
  match truthy (q_search q) with
  | Some search =>
      contains_insensitive (Todo.title t) search = true ∨
      (∃ d, Todo.description t = Some d ∧ contains_insensitive d search = true)
  | None =>
      q_type q ≠ Some "assigned" → q_type q ≠ Some "created" →
      Todo.assignedToId t = userId ∨ Todo.createdById t = userId
  end.
Proof.
  unfold list_whereClause.
  destruct (truthy (q_search q)) as [search|];
    (destruct (truthy (q_status q)) as [s|];
       [destruct (parseStatus s) as [st|] eqn:Hp|]);
    repeat case_decide;
    unfold TodoWhere.matches; cbn -[contains_insensitive];
    rewrite ?andb_true_r, ?andb_true_iff, ?orb_false_r, ?orb_true_iff,
      ?bool_decide_eq_true;
    destruct (Todo.description t); naive_solver.
Qed.

(** X2. Whatever its two selectors hold, the request the todos page
    sends lists only todos the user created or is assigned to; the
    selector "my-todos" narrows them to the created ones,
    "assigned-to-me" to the assigned ones, and a status selector that
    names a status to the todos in that status. *)
Theorem todos_page_lists_only_accessible db user filter statusFilter t :
  t ∈ list_rows db user (loadTodos_query filter statusFilter) →
  canAccess user t = true ∧
  (filter = "my-todos" → Todo.createdById t = User.id user) ∧
  (filter = "assigned-to-me" → Todo.assignedToId t = User.id user) ∧
  (∀ st, parseStatus statusFilter = Some st → Todo.status t = st).
Proof.
  intros Ht. split.
  { by apply (list_without_search_accessible db user
                (loadTodos_query filter statusFilter) eq_refl). }
  apply list_rows_elem in Ht as [Hm _].
  apply list_whereClause_matches in Hm as (Hasg & Hcr & Hstat & _).
  unfold loadTodos_query in Hasg, Hcr, Hstat. cbn [q_type q_status] in Hasg, Hcr, Hstat.
  split; [|split].
  - intros ->. rewrite decide_True in Hcr by done. by apply Hcr.
  - intros ->. rewrite decide_False, decide_True in Hasg by done. by apply Hasg.
  - intros st Hp. rewrite decide_True in Hstat by (intros ->; vm_compute in Hp; discriminate).
    apply (Hstat statusFilter st); [|done].
    destruct statusFilter; [vm_compute in Hp; discriminate|reflexivity].
Qed.

Lemma todos_page_lists_only_accessible_witness :
  canAccess Sample.bob Sample.milk = true ∧
  ("assigned-to-me" = "my-todos" → Todo.createdById Sample.milk = User.id Sample.bob) ∧
  ("assigned-to-me" = "assigned-to-me" →
     Todo.assignedToId Sample.milk = User.id Sample.bob) ∧
  (∀ st, parseStatus "PENDING" = Some st → Todo.status Sample.milk = st).
Proof.
  apply (todos_page_lists_only_accessible Sample.db Sample.bob
           "assigned-to-me" "PENDING" Sample.milk).
  by_compute.
Defined.

(** ** The dashboard *)

(** X3. The three status counters of the dashboard add up to its total:
    every todo is counted under exactly one status. *)
Theorem dashboard_stats_add_up todos :
  let '(total, pending, inProgress, completed) := dashboard_stats todos in
  total = (pending + inProgress + completed)%nat.
Proof.
  unfold dashboard_stats. induction todos as [|t l IH]; [done|].
  rewrite !filter_cons. cbn [length]. rewrite IH.
  destruct (Todo.status t); repeat case_decide; try done; cbn [length]; lia.
Qed.

(** ** Stored file names *)

(** X4. The sanitized part of a stored file name has the length of the
    original name, consists of letters, digits, dots, hyphens and
    underscores only, so holds no path separator, and sanitizing it
    again changes nothing. *)
Theorem sanitize_safe s :
  String.length (sanitize s) = String.length s ∧
  Forall (λ c, is_name_char c = true ∨ c = "_"%char)
    (list_ascii_of_string (sanitize s)) ∧
  ("/"%char ∉ list_ascii_of_string (sanitize s)) ∧
  ("\"%char ∉ list_ascii_of_string (sanitize s)) ∧
  sanitize (sanitize s) = sanitize s.
Proof.
  induction s as [|c s (Hlen & Hall & Hslash & Hback & Hidem)]; cbn.
  { repeat split; [constructor|apply not_elem_of_nil..]. }
  split; [by rewrite Hlen|].
  destruct (is_name_char c) eqn:Hc.
  - split; [constructor; auto|]. rewrite !not_elem_of_cons, Hc, Hidem.
    repeat split; try done; by intros <-.
  - split; [constructor; auto|]. rewrite !not_elem_of_cons.
    change (is_name_char "_") with false. cbn iota. rewrite Hidem. done.
Qed.

(** ** The file filter *)

Lemma take_until_all c l : c ∉ l → take_until c l = l.
Proof.
  induction l as [|x l IH]; [done|]. cbn. rewrite not_elem_of_cons.
  intros [Hne Hl]. rewrite decide_False by done. by rewrite IH.
Qed.

Lemma take_until_elem c l x : x ∈ take_until c l → x ∈ l.
Proof.
  induction l as [|y l IH]; [done|]. cbn.
  case_decide; [intros Hx; by apply elem_of_nil in Hx|].
  rewrite !elem_of_cons. intros [->|Hx]; auto.
Qed.

Lemma drop_leading_elem c l x : x ∈ drop_leading c l → x ∈ l.
Proof.
  induction l as [|y l IH]; [done|]. cbn. case_decide; [|done].
  rewrite elem_of_cons. auto.
Qed.

(** X5. A file whose name has no dot has no extension and is rejected
    by the upload filter, whatever media type it declares. *)
Theorem fileFilter_rejects_without_extension originalname mimetype :
  "."%char ∉ list_ascii_of_string originalname →
  extname originalname = "" ∧ fileFilter originalname mimetype = false.
Proof.
  intros Hdot.
  assert (Hext : extname originalname = "").
  { unfold extname. rewrite decide_True; [done|]. apply take_until_all.
    intros Hin. apply take_until_elem, drop_leading_elem in Hin.
    rewrite elem_of_reverse in Hin. by destruct Hdot. }
  split; [done|]. unfold fileFilter. rewrite Hext. apply andb_false_r.
Qed.

Lemma fileFilter_rejects_without_extension_witness :
  extname "Makefile" = "" ∧ fileFilter "Makefile" "text/plain" = false.
Proof.
  apply (fileFilter_rejects_without_extension "Makefile" "text/plain").
  by_compute.
Defined.

(** ** Assignable users *)

Lemma user_findUnique_unique db u :
  NoDup (User.id <$> users db) → u ∈ users db →
  user_findUnique db (User.id u) = Some u.
Proof.
  intros Hnd Hu. unfold user_findUnique.
  rewrite (head_filter_unique User.id _ _ u Hnd Hu); [|done].
  by rewrite decide_True.
Qed.




(** ** The file routes *)

Lemma file_findFirst_absent db w id :
  (∀ f, f ∈ files db → File.id f ≠ id) →
  file_findFirst db (FileWhere.mk (Some id) w) = None.
Proof.
  intros Hno. unfold file_findFirst. apply head_filter_None. intros f Hf Hm.
  apply (Hno f Hf). unfold FileWhere.matches in Hm. cbn in Hm.
  apply andb_true_iff in Hm as [Hm _]. by apply bool_decide_eq_true in Hm.
Qed.

(** X7. The three file routes that take a file id (info, download,
    delete) serve exactly the callers who created the parent todo of
    the file or are assigned to it; every other caller gets the merged
    404 and changes nothing. *)
Theorem file_routes_follow_todo_access db disk user f t :
  NoDup (File.id <$> files db) → NoDup (Todo.id <$> todos db) →
  f ∈ files db → t ∈ todos db → Todo.id t = File.todoId f →
  (file_info db user (File.id f) = sent 200 (f, Some t) ↔
     User.id user = Todo.createdById t ∨ User.id user = Todo.assignedToId t) ∧
  (¬ (User.id user = Todo.createdById t ∨ User.id user = Todo.assignedToId t) →
     file_info db user (File.id f) = refused 404 "File not found or access denied" ∧
     download_file db disk user (File.id f)
       = json 404 (b_error "File not found or access denied") ∧
     delete_file db disk user (File.id f)
       = (json 404 (b_error "File not found or access denied"), db, disk)).
Proof.
  intros Hfiles Htodos Hf Ht Hid.
  pose proof (file_findFirst_access db user f t Hfiles Htodos Hf Ht Hid) as Hfind.
  pose proof (canAccess_spec user t) as Hspec.
  unfold file_info, download_file, delete_file, related_todo. rewrite Hfind.
  destruct (canAccess user t).
  - rewrite <- Hid, (findFirst_id db t Htodos Ht).
    split; [|tauto]. split; [intros _; by apply Hspec|done].
  - split; [|done]. split; [done|]. intros Hacc. apply Hspec in Hacc. discriminate.
Qed.

Lemma file_routes_follow_todo_access_witness :
  (file_info Sample.db Sample.carol (File.id Sample.notes)
     = sent 200 (Sample.notes, Some Sample.milk) ↔
     User.id Sample.carol = Todo.createdById Sample.milk ∨
     User.id Sample.carol = Todo.assignedToId Sample.milk) ∧
  (¬ (User.id Sample.carol = Todo.createdById Sample.milk ∨
      User.id Sample.carol = Todo.assignedToId Sample.milk) →
     file_info Sample.db Sample.carol (File.id Sample.notes)
       = refused 404 "File not found or access denied" ∧
     download_file Sample.db ∅ Sample.carol (File.id Sample.notes)
       = json 404 (b_error "File not found or access denied") ∧
     delete_file Sample.db ∅ Sample.carol (File.id Sample.notes)
       = (json 404 (b_error "File not found or access denied"), Sample.db, ∅)).
Proof.
  apply (file_routes_follow_todo_access Sample.db ∅ Sample.carol Sample.notes Sample.milk).
  - by_compute.
  - by_compute.
  - by_compute.
  - by_compute.
  - reflexivity.
Defined.

#[local] Instance newest_first_total : Total newest_first.
Proof. intros a b. unfold newest_first. lia. Qed.

#[local] Instance newest_first_transitive : Transitive newest_first.
Proof. intros a b c. unfold newest_first. lia. Qed.

(** X8. For a caller with access to a todo, the files-of-a-todo route
    answers with exactly the file rows attached to that todo, newest
    first; for any other caller it answers 404. *)
Theorem todo_files_of_accessible_todo db user t :
  NoDup (Todo.id <$> todos db) → t ∈ todos db →
  (canAccess user t = true →
     ∃ rows, todo_files db user (Todo.id t) = sent 200 rows ∧
             (∀ f, f ∈ rows ↔ f ∈ files db ∧ File.todoId f = Todo.id t) ∧
             StronglySorted newest_first rows) ∧
  (canAccess user t = false →
     todo_files db user (Todo.id t) = refused 404 "Todo not found or access denied").
Proof.
  intros Hnd Ht. unfold todo_files. rewrite (findFirst_id_access db user t Hnd Ht).
  split; intros ->; [|done]. eexists. split; [done|]. split.
  - intros f. rewrite merge_sort_Permutation, list_elem_of_filter. tauto.
  - apply StronglySorted_merge_sort; apply _.
Qed.

Lemma todo_files_of_accessible_todo_witness :
  (canAccess Sample.bob Sample.milk = true →
     ∃ rows, todo_files Sample.db Sample.bob (Todo.id Sample.milk) = sent 200 rows ∧
             (∀ f, f ∈ rows ↔ f ∈ files Sample.db ∧ File.todoId f = Todo.id Sample.milk) ∧
             StronglySorted newest_first rows) ∧
  (canAccess Sample.bob Sample.milk = false →
     todo_files Sample.db Sample.bob (Todo.id Sample.milk)
       = refused 404 "Todo not found or access denied").
Proof.
  apply (todo_files_of_accessible_todo Sample.db Sample.bob Sample.milk).
  - by_compute.
  - by_compute.
Defined.

(** X9. The files a user is listed are the file rows whose parent todo
    the user created or is assigned to, and they are exactly the files
    the info route serves to that user. *)
Theorem user_files_are_the_readable_files db user f :
  NoDup (File.id <$> files db) → NoDup (Todo.id <$> todos db) →
  f ∈ files db →
  (f ∈ user_file_rows db user ↔
     ∃ t, t ∈ todos db ∧ Todo.id t = File.todoId f ∧ canAccess user t = true) ∧
  (f ∈ user_file_rows db user ↔
     ∃ included, file_info db user (File.id f) = sent 200 (f, included)).
Proof.
  intros Hfiles Htodos Hf.
  assert (Hrows : f ∈ user_file_rows db user ↔
            ∃ t, t ∈ todos db ∧ Todo.id t = File.todoId f ∧ canAccess user t = true).
  { unfold user_file_rows, file_findMany.
    rewrite merge_sort_Permutation, list_elem_of_filter.
    unfold FileWhere.matches. cbn -[TodoWhere.matches]. split.
    - intros [Hm _].
      destruct (todo_findFirst db _) as [t|] eqn:Hfind; [|done].
      exists t. unfold todo_findFirst, todo_findMany in Hfind.
      apply head_Some_elem_of, list_elem_of_filter in Hfind as [Hid Ht].
      apply matches_id in Hid. by repeat split.
    - intros (t & Ht & Hid & Hacc). split; [|done].
      by rewrite <- Hid, (findFirst_id db t Htodos Ht). }
  split; [done|]. rewrite Hrows. unfold file_info. split.
  - intros (t & Ht & Hid & Hacc).
    rewrite (file_findFirst_access db user f t Hfiles Htodos Hf Ht Hid), Hacc.
    by eexists.
  - intros [included Hinfo].
    destruct (file_findFirst db _) as [g|] eqn:Hfind; [|done].
    injection Hinfo as -> _.
    unfold file_findFirst in Hfind.
    apply head_Some_elem_of, list_elem_of_filter in Hfind as [Hm _].
    unfold FileWhere.matches in Hm. cbn -[TodoWhere.matches] in Hm.
    apply andb_true_iff in Hm as [_ Hm].
    destruct (todo_findFirst db _) as [t|] eqn:Htodo; [|done].
    exists t. unfold todo_findFirst, todo_findMany in Htodo.
    apply head_Some_elem_of, list_elem_of_filter in Htodo as [Hid Ht].
    apply matches_id in Hid. by repeat split.
Qed.

Lemma user_files_are_the_readable_files_witness :
  (Sample.notes ∈ user_file_rows Sample.db Sample.bob ↔
     ∃ t, t ∈ todos Sample.db ∧ Todo.id t = File.todoId Sample.notes ∧
          canAccess Sample.bob t = true) ∧
  (Sample.notes ∈ user_file_rows Sample.db Sample.bob ↔
     ∃ included,
       file_info Sample.db Sample.bob (File.id Sample.notes)
       = sent 200 (Sample.notes, included)).
Proof.
  apply (user_files_are_the_readable_files Sample.db Sample.bob Sample.notes).
  - by_compute.
  - by_compute.
  - by_compute.
Defined.

(** X10. A caller with access to the parent todo, the assignee as much
    as the creator, deletes a file: its record is removed and all other
    records stay, its stored object is removed from the upload
    directory and every other object stays, and from then on the info
    and download routes answer 404 for its id to every caller. *)
Theorem delete_file_removes_record_and_object db disk user f t :
  NoDup (File.id <$> files db) → NoDup (Todo.id <$> todos db) →
  f ∈ files db → t ∈ todos db → Todo.id t = File.todoId f →
  canAccess user t = true →
  ∃ db',
    delete_file db disk user (File.id f)
      = (json 200 (b_message "File deleted successfully"), db',
         delete (File.filename f) disk) ∧
    (∀ g, g ∈ files db' ↔ g ∈ files db ∧ g ≠ f) ∧
    todos db' = todos db ∧ users db' = users db ∧
    (∀ caller disk',
       file_info db' caller (File.id f) = refused 404 "File not found or access denied" ∧
       download_file db' disk' caller (File.id f)
         = json 404 (b_error "File not found or access denied")).
Proof.
  intros Hfiles Htodos Hf Ht Hid Hacc. unfold delete_file.
  rewrite (file_findFirst_access db user f t Hfiles Htodos Hf Ht Hid), Hacc.
  exists (set_files db (filter (λ g, File.id g ≠ File.id f) (files db))).
  split; [|split; [|split; [done|split; [done|]]]].
  - f_equal. destruct (disk !! File.filename f) eqn:Hd; [done|].
    by rewrite delete_id.
  - intros g. cbn. rewrite list_elem_of_filter. split.
    + intros [Hne Hg]. split; [done|]. congruence.
    + intros [Hg Hne]. split; [|done]. intros Hgid. apply Hne.
      by apply (NoDup_fmap_eq File.id (files db)).
  - intros caller disk'. unfold file_info, download_file.
    rewrite file_findFirst_absent; [done|].
    intros g Hg. cbn in Hg. by apply list_elem_of_filter in Hg as [? _].
Qed.

Lemma delete_file_removes_record_and_object_witness :
  ∃ db',
    delete_file Sample.db ∅ Sample.bob (File.id Sample.notes)
      = (json 200 (b_message "File deleted successfully"), db',
         delete (File.filename Sample.notes) ∅) ∧
    (∀ g, g ∈ files db' ↔ g ∈ files Sample.db ∧ g ≠ Sample.notes) ∧
    todos db' = todos Sample.db ∧ users db' = users Sample.db ∧
    (∀ caller disk',
       file_info db' caller (File.id Sample.notes)
         = refused 404 "File not found or access denied" ∧
       download_file db' disk' caller (File.id Sample.notes)
         = json 404 (b_error "File not found or access denied")).
Proof.
  apply (delete_file_removes_record_and_object Sample.db ∅ Sample.bob
           Sample.notes Sample.milk).
  - by_compute.
  - by_compute.
  - by_compute.
  - by_compute.
  - reflexivity.
  - reflexivity.
Defined.

(** ** A reorder that passes the check *)

Lemma userTodos_length_complete db user ids :
  NoDup (Todo.id <$> todos db) → NoDup ids →
  (∀ id, id ∈ ids → ∃ t, t ∈ todos db ∧ Todo.id t = id ∧ canAccess user t = true) →
  length (todo_findMany db
            (TodoWhere.set_OR (accessOR (User.id user))
               (TodoWhere.set_id_in ids TodoWhere.empty)))
  = length ids.
Proof.
  intros Hnd Hids Hall. rewrite <- (length_fmap Todo.id).
  apply Permutation_length, NoDup_Permutation; [|done|].
  - apply (sublist_NoDup _ (Todo.id <$> todos db)); [done|].
    apply fmap_sublist, sublist_filter.
  - intros id. unfold todo_findMany. rewrite list_elem_of_fmap. split.
    + intros (t & -> & Ht). apply list_elem_of_filter in Ht as [Hm _].
      by apply matches_in_access in Hm as [? _].
    + intros Hid. destruct (Hall id Hid) as (t & Ht & <- & Hacc).
      exists t. split; [done|]. apply list_elem_of_filter. split; [|done].
      apply matches_in_access. split; [done|].
      apply canAccess_spec in Hacc. intuition congruence.
Qed.

(** The rows after an update come from the rows before it: the row with
    the id of the update patched, every other row as it was. *)
Lemma todo_update_preimage sch env db db' data T t' :
  NoDup (Todo.id <$> todos db) → T ∈ todos db →
  todo_update sch env db (Todo.id T) data = Some db' →
  t' ∈ todos db' →
  ∃ t, t ∈ todos db ∧
       ((Todo.id t = Todo.id T ∧ TodoData.apply sch data (now env) t = Some t') ∨
        (Todo.id t ≠ Todo.id T ∧ t' = t)).
Proof.
  intros Hnd HT Hupd Ht'.
  destruct (todo_update_rows sch env db db' data T Hnd HT Hupd) as (Hrows & _ & _).
  apply list_elem_of_lookup in Ht' as [j Hj].
  destruct (Forall2_lookup_r _ _ _ j t' Hrows Hj) as (t & Ht & Hft).
  exists t. split; [by eapply list_elem_of_lookup_2|].
  case_decide; [by left|right]. split; [done|congruence].
Qed.

Lemma order_data_apply sch env update T :
  TodoData.apply sch (order_data update).2 (now env) T
  = if decide (int4 (r_order update)) then
      Some (Todo.mk (Todo.id T) (Todo.title T) (Todo.description T) (Todo.status T)
              (Todo.dueDate T) (r_order update) (Todo.createdAt T)
              (if updatedAt_auto sch then now env else Todo.updatedAt T)
              (Todo.createdById T) (Todo.assignedToId T))
    else None.
Proof. unfold TodoData.apply. cbn. by case_decide. Qed.

(** One order outside the range of the column fails the transaction as
    a whole. *)
Lemma transaction_out_of_range sch env updates :
  ∀ db,
    NoDup (Todo.id <$> todos db) →
    (∀ u, u ∈ updates → r_id u ∈ Todo.id <$> todos db) →
    Exists (λ u, ¬ int4 (r_order u)) updates →
    transaction sch env db (order_data <$> updates) = None.
Proof.
  induction updates as [|u rest IH]; intros db Hnd Hin Hbad.
  - by apply Exists_nil in Hbad.
  - destruct (list_elem_of_fmap_1 Todo.id (todos db) (r_id u)) as (T & HidT & HT).
    { apply Hin. left. }
    cbn. rewrite HidT.
    destruct (todo_update sch env db (Todo.id T) _) as [db1|] eqn:Hupd; [|done].
    destruct (todo_update_row sch env db db1 _ T Hnd HT Hupd)
      as (T' & Happ & _ & _ & _ & Hids1).
    change (TodoData.mk None None None None (Some (r_order u)) None)
      with (order_data u).2 in Happ.
    rewrite order_data_apply in Happ.
    apply Exists_cons in Hbad as [Hbad|Hbad]; [by rewrite decide_False in Happ|].
    apply IH; [by rewrite Hids1| |done].
    intros u' Hu'. rewrite Hids1. apply Hin. by right.
Qed.

Lemma transaction_reorder sch env updates :
  ∀ db,
    NoDup (Todo.id <$> todos db) → NoDup (r_id <$> updates) →
    (∀ u, u ∈ updates → r_id u ∈ Todo.id <$> todos db) →
    Forall (λ u, int4 (r_order u)) updates →
    ∃ db', transaction sch env db (order_data <$> updates) = Some db' ∧
           users db' = users db ∧ files db' = files db ∧
           Todo.id <$> todos db' = Todo.id <$> todos db ∧
           ∀ t', t' ∈ todos db' → ∃ t, t ∈ todos db ∧ reordered updates t t'.
Proof.
  induction updates as [|u rest IH]; intros db Hnd Hids Hin Hrange.
  - exists db. repeat split; try done. intros t' Ht'. exists t'.
    split; [done|]. unfold reordered. repeat split; try done.
    intros u Hu. by apply elem_of_nil in Hu.
  - rewrite fmap_cons in Hids. apply NoDup_cons in Hids as [Hu Hrest].
    apply Forall_cons in Hrange as [Hrange_u Hrange].
    destruct (list_elem_of_fmap_1 Todo.id (todos db) (r_id u)) as (T & HidT & HT).
    { apply Hin. left. }
    cbn. rewrite HidT.
    destruct (todo_update_is_Some sch env db
                (TodoData.mk None None None None (Some (r_order u)) None) T Hnd HT)
      as [db1 Hupd].
    { change (TodoData.mk None None None None (Some (r_order u)) None)
        with (order_data u).2.
      rewrite order_data_apply, decide_True by done. by eexists. }
    rewrite Hupd.
    destruct (todo_update_rows sch env db db1 _ T Hnd HT Hupd) as (_ & Husers & Hfiles).
    destruct (todo_update_row sch env db db1 _ T Hnd HT Hupd) as (_ & _ & _ & _ & _ & Hids1).
    assert (Hnd1 : NoDup (Todo.id <$> todos db1)) by (by rewrite Hids1).
    assert (Hin1 : ∀ u', u' ∈ rest → r_id u' ∈ Todo.id <$> todos db1).
    { intros u' Hu'. rewrite Hids1. apply Hin. by right. }
    destruct (IH db1 Hnd1 Hrest Hin1 Hrange)
      as (db' & Htx & Husers' & Hfiles' & Hids' & Hrows).
    exists db'. split; [done|]. split; [congruence|]. split; [congruence|].
    split; [congruence|]. intros t' Ht'.
    destruct (Hrows t' Ht')
      as (t1 & Ht1 & Hid & Htitle & Hdesc & Hst & Hdue & Hca & Hcb & Hasg & Hord & Hsame).
    destruct (todo_update_preimage sch env db db1 _ T t1 Hnd HT Hupd Ht1)
      as (t & Ht & [[HtT Happ]|[HtT ->]]).
    + apply apply_frame in Happ
        as (Hid1 & Hcb1 & Hca1 & _ & Htitle1 & Hdesc1 & Hst1 & Hdue1 & Hord1 & Hasg1).
      cbn in Htitle1, Hdue1, Hord1, Hasg1.
      assert (Hnot : Todo.id t1 ∉ r_id <$> rest) by congruence.
      specialize (Hsame Hnot). subst t'.
      exists t. split; [done|]. unfold reordered.
      rewrite Hid1, Htitle1, Hdesc1, Hst1, Hdue1, Hca1, Hcb1, Hasg1, Hord1 by done.
      repeat split; try done.
      * intros u' Hu' Hu'id. apply elem_of_cons in Hu' as [->|Hu']; [done|].
        destruct Hu. rewrite HidT, <- HtT, <- Hu'id. by apply list_elem_of_fmap_2.
      * intros Hno. destruct Hno. rewrite fmap_cons, HtT, HidT. left.
    + exists t. split; [done|]. unfold reordered. repeat split; try done.
      * intros u' Hu' Hu'id. apply elem_of_cons in Hu' as [->|Hu']; [congruence|].
        by apply Hord.
      * intros Hno. apply Hsame. intros Hin'. apply Hno. rewrite fmap_cons. by right.
Qed.

(** X11. A reorder list of distinct ids, each the id of a todo the
    caller can access, is applied as a whole or not at all.  When every
    order fits the 32-bit column the answer is 200, every listed todo
    has the order the list gives it, every todo that is not listed is
    as it was, and no todo changes in anything but its order and update
    time; users and files are untouched.  When one order does not fit,
    the request ends in an error and the database is as it was. *)
Theorem reorder_applies_orders sch env db user updates :
  NoDup (Todo.id <$> todos db) → NoDup (r_id <$> updates) →
  (∀ u, u ∈ updates →
        ∃ t, t ∈ todos db ∧ Todo.id t = r_id u ∧ canAccess user t = true) →
  (Forall (λ u, int4 (r_order u)) updates →
   ∃ db',
    reorder_todos sch env db user (Some updates)
      = (json 200 (b_message "Todo order updated successfully"), db') ∧
    users db' = users db ∧ files db' = files db ∧
    Todo.id <$> todos db' = Todo.id <$> todos db ∧
    (∀ u, u ∈ updates →
          ∃ t', t' ∈ todos db' ∧ Todo.id t' = r_id u ∧ Todo.order t' = r_order u) ∧
    (∀ t, t ∈ todos db → Todo.id t ∉ r_id <$> updates → t ∈ todos db') ∧
    (∀ t', t' ∈ todos db' → ∃ t, t ∈ todos db ∧ reordered updates t t')) ∧
  (Exists (λ u, ¬ int4 (r_order u)) updates →
   reorder_todos sch env db user (Some updates) = (next "prisma.$transaction", db)).
Proof.
  intros Hnd Hids Hall.
  assert (Hin : ∀ u, u ∈ updates → r_id u ∈ Todo.id <$> todos db).
  { intros u Hu. destruct (Hall u Hu) as (t & Ht & <- & _).
    by apply list_elem_of_fmap_2. }
  assert (Hcheck : ¬ length (todo_findMany db
                     (TodoWhere.set_OR (accessOR (User.id user))
                        (TodoWhere.set_id_in (r_id <$> updates) TodoWhere.empty)))
                   ≠ length (r_id <$> updates)).
  { intros Hne. apply Hne. apply userTodos_length_complete; [done..|].
    intros id Hid. apply list_elem_of_fmap in Hid as (u & -> & Hu). by apply Hall. }
  split.
  - intros Hrange.
    destruct (transaction_reorder sch env updates db Hnd Hids Hin Hrange)
      as (db' & Htx & Husers & Hfiles & Hids' & Hrows).
    exists db'. split.
    { unfold reorder_todos. rewrite decide_False by done.
      fold order_data. by rewrite Htx. }
    split; [done|]. split; [done|]. split; [done|]. split; [|split; [|done]].
    + intros u Hu. destruct (Hall u Hu) as (t & Ht & Hid & _).
      assert (Hin' : r_id u ∈ Todo.id <$> todos db').
      { rewrite Hids', <- Hid. by apply list_elem_of_fmap_2. }
      apply list_elem_of_fmap in Hin' as (t' & Hid' & Ht').
      exists t'. split; [done|]. split; [done|].
      destruct (Hrows t' Ht') as (t0 & _ & Hid0 & _ & _ & _ & _ & _ & _ & _ & Hord & _).
      apply Hord; [done|]. congruence.
    + intros t Ht Hno.
      assert (Hin' : Todo.id t ∈ Todo.id <$> todos db').
      { rewrite Hids'. by apply list_elem_of_fmap_2. }
      apply list_elem_of_fmap in Hin' as (t' & Hid' & Ht').
      destruct (Hrows t' Ht') as (t0 & Ht0 & Hid0 & _ & _ & _ & _ & _ & _ & _ & _ & Hsame).
      assert (t0 = t) as ->.
      { apply (NoDup_fmap_eq Todo.id (todos db)); [done..|]. congruence. }
      by rewrite <- (Hsame Hno).
  - intros Hbad. unfold reorder_todos. rewrite decide_False by done.
    fold order_data. by rewrite (transaction_out_of_range sch env updates db Hnd Hin Hbad).
Qed.

Lemma reorder_applies_orders_witness :
  (Forall (λ u, int4 (r_order u)) [mkReorder "t1" 5; mkReorder "t2" 6] →
   ∃ db',
    reorder_todos Sample.cascading Sample.env Sample.db Sample.alice
      (Some [mkReorder "t1" 5; mkReorder "t2" 6])
      = (json 200 (b_message "Todo order updated successfully"), db') ∧
    users db' = users Sample.db ∧ files db' = files Sample.db ∧
    Todo.id <$> todos db' = Todo.id <$> todos Sample.db ∧
    (∀ u, u ∈ [mkReorder "t1" 5; mkReorder "t2" 6] →
          ∃ t', t' ∈ todos db' ∧ Todo.id t' = r_id u ∧ Todo.order t' = r_order u) ∧
    (∀ t, t ∈ todos Sample.db →
          Todo.id t ∉ r_id <$> [mkReorder "t1" 5; mkReorder "t2" 6] → t ∈ todos db') ∧
    (∀ t', t' ∈ todos db' →
           ∃ t, t ∈ todos Sample.db ∧
                reordered [mkReorder "t1" 5; mkReorder "t2" 6] t t')) ∧
  (Exists (λ u, ¬ int4 (r_order u)) [mkReorder "t1" 5; mkReorder "t2" 6] →
   reorder_todos Sample.cascading Sample.env Sample.db Sample.alice
     (Some [mkReorder "t1" 5; mkReorder "t2" 6])
   = (next "prisma.$transaction", Sample.db)).
Proof.
  apply (reorder_applies_orders Sample.cascading Sample.env Sample.db Sample.alice
           [mkReorder "t1" 5; mkReorder "t2" 6]).
  - by_compute.
  - by_compute.
  - intros u Hu. apply elem_of_cons in Hu as [->|Hu].
    + exists Sample.milk. by_compute.
    + apply elem_of_cons in Hu as [->|Hu].
      * exists Sample.report. by_compute.
      * by apply elem_of_nil in Hu.
Defined.

(** ** Creating a todo and reading it back *)



(** ** Reassigning a todo *)

Lemma todo_update_then_find sch env db data T T' :
  NoDup (Todo.id <$> todos db) → T ∈ todos db →
  TodoData.apply sch data (now env) T = Some T' →
  ∃ db', todo_update sch env db (Todo.id T) data = Some db' ∧
         todo_findFirst db' (TodoWhere.set_id (Todo.id T) TodoWhere.empty) = Some T' ∧
         T' ∈ todos db' ∧ NoDup (Todo.id <$> todos db') ∧
         users db' = users db ∧ files db' = files db ∧
         (∀ t, t ∈ todos db → t ≠ T → t ∈ todos db').
Proof.
  intros Hnd HT Happ.
  destruct (todo_update_is_Some sch env db data T Hnd HT) as [db' Hupd]; [by eexists|].
  destruct (todo_update_rows sch env db db' data T Hnd HT Hupd) as (_ & Husers & Hfiles).
  destruct (todo_update_row sch env db db' data T Hnd HT Hupd)
    as (T1 & Happ1 & HT1 & _ & Hothers & Hids).
  assert (T1 = T') as -> by congruence.
  assert (Hnd' : NoDup (Todo.id <$> todos db')) by (by rewrite Hids).
  exists db'. repeat split; try done.
  apply apply_frame in Happ as [<- _]. by apply findFirst_id.
Qed.

(** X13. Any caller with access, the assignee included, can hand a todo
    to another active user: the update is answered 200, the todo keeps
    its id, creator and content and has the new assignee, and from then
    on GET /todos/:id serves it to its creator and its new assignee
    only, so that an assignee who gives the todo away and is not its
    creator gets a 404 for it. *)
Theorem reassign_moves_access sch env db user T assignee :
  NoDup (User.id <$> users db) → NoDup (Todo.id <$> todos db) →
  T ∈ todos db → canAccess user T = true →
  assignee ∈ users db → User.status assignee = ACTIVE →
  ∃ db' T',
    update_todo sch env db user (Todo.id T)
        (mkUpdate None None None None None (Some (User.id assignee)))
      = (json 200 (b_message_todo "Todo updated successfully" (include db' T')), db') ∧
    T' ∈ todos db' ∧
    Todo.id T' = Todo.id T ∧ Todo.assignedToId T' = User.id assignee ∧
    Todo.createdById T' = Todo.createdById T ∧ Todo.title T' = Todo.title T ∧
    Todo.description T' = Todo.description T ∧ Todo.status T' = Todo.status T ∧
    Todo.dueDate T' = Todo.dueDate T ∧ Todo.order T' = Todo.order T ∧
    (∀ U, get_todo db' U (Todo.id T) = json 200 (b_todo (include db' T')) ↔
          User.id U = Todo.createdById T ∨ User.id U = User.id assignee) ∧
    (User.id user ≠ Todo.createdById T → User.id user ≠ User.id assignee →
       NotFoundOrForbidden (get_todo db' user (Todo.id T))).
Proof.
  intros Husers Htodos HT Hacc Hassignee Hactive. unfold update_todo.
  rewrite (findFirst_id_access db user T Htodos HT), Hacc. cbn.
  rewrite (user_findUnique_unique db assignee Husers Hassignee).
  rewrite decide_False by congruence. cbn.
  set (data := TodoData.mk None None None None None (Some (User.id assignee))).
  destruct (TodoData.apply sch data (now env) T) as [T'|] eqn:Happ; [|done].
  destruct (todo_update_then_find sch env db data T T' Htodos HT Happ)
    as (db' & Hupd & Hfind & HT' & Hnd' & _).
  rewrite Hupd, Hfind. exists db', T'. split; [done|]. split; [done|].
  apply apply_frame in Happ
    as (Hid & Hcb & _ & _ & Htitle & Hdesc & Hst & Hdue & Hord & Hasg).
  cbn in Htitle, Hdue, Hord, Hasg.
  rewrite Hid, Hasg, Hcb, Htitle, Hdesc, Hst, Hdue, Hord by done.
  repeat split; try done.
  - rewrite <- Hid. unfold get_todo. rewrite (findFirst_id_access db' U T' Hnd' HT').
    pose proof (canAccess_spec U T') as Hspec. rewrite Hcb, Hasg in Hspec.
    destruct (canAccess U T'); [intros _; by apply Hspec|done].
  - rewrite <- Hid. unfold get_todo. rewrite (findFirst_id_access db' U T' Hnd' HT').
    pose proof (canAccess_spec U T') as Hspec. rewrite Hcb, Hasg in Hspec.
    intros HU. apply Hspec in HU. by rewrite HU.
  - intros Hc Ha. rewrite <- Hid. unfold get_todo, NotFoundOrForbidden.
    rewrite (findFirst_id_access db' user T' Hnd' HT').
    pose proof (canAccess_spec user T') as Hspec. rewrite Hcb, Hasg in Hspec.
    destruct (canAccess user T'); [|done].
    destruct Hspec as [Hspec _]. destruct (Hspec eq_refl); done.
Qed.

Lemma reassign_moves_access_witness :
  ∃ db' T',
    update_todo Sample.cascading Sample.env Sample.db Sample.bob (Todo.id Sample.milk)
        (mkUpdate None None None None None (Some (User.id Sample.carol)))
      = (json 200 (b_message_todo "Todo updated successfully" (include db' T')), db') ∧
    T' ∈ todos db' ∧
    Todo.id T' = Todo.id Sample.milk ∧ Todo.assignedToId T' = User.id Sample.carol ∧
    Todo.createdById T' = Todo.createdById Sample.milk ∧
    Todo.title T' = Todo.title Sample.milk ∧
    Todo.description T' = Todo.description Sample.milk ∧
    Todo.status T' = Todo.status Sample.milk ∧
    Todo.dueDate T' = Todo.dueDate Sample.milk ∧ Todo.order T' = Todo.order Sample.milk ∧
    (∀ U, get_todo db' U (Todo.id Sample.milk) = json 200 (b_todo (include db' T')) ↔
          User.id U = Todo.createdById Sample.milk ∨ User.id U = User.id Sample.carol) ∧
    (User.id Sample.bob ≠ Todo.createdById Sample.milk →
     User.id Sample.bob ≠ User.id Sample.carol →
       NotFoundOrForbidden (get_todo db' Sample.bob (Todo.id Sample.milk))).
Proof.
  apply (reassign_moves_access Sample.cascading Sample.env Sample.db Sample.bob
           Sample.milk Sample.carol).
  - by_compute.
  - by_compute.
  - by_compute.
  - reflexivity.
  - by_compute.
  - reflexivity.
Defined.

(** ** After a todo is deleted *)

(** X14. Once its creator has deleted a todo (the file relation
    cascading), GET and DELETE for its id answer the merged 404 to
    every caller, no list contains it, and every other todo is served
    to every caller exactly as before, files included. *)
Theorem delete_then_gone sch db user T :
  NoDup (Todo.id <$> todos db) → T ∈ todos db →
  file_todo_onDelete sch = Cascade →
  User.id user = Todo.createdById T →
  ∃ db',
    delete_todo sch db user (Todo.id T)
      = (json 200 (b_message "Todo deleted successfully"), db') ∧
    (∀ U, get_todo db' U (Todo.id T)
          = json 404 (b_error "Todo not found or access denied")) ∧
    (∀ U, delete_todo sch db' U (Todo.id T)
          = (json 404 (b_error "Todo not found or access denied"), db')) ∧
    (∀ U q, T ∉ list_rows db' U q) ∧
    (∀ U t, t ∈ todos db → t ≠ T →
            get_todo db' U (Todo.id t) = get_todo db U (Todo.id t)).
Proof.
  intros Hnd HT Hsch Hcreator. unfold delete_todo at 1. unfold todo_delete.
  rewrite (findFirst_id_creator db user T Hnd HT), decide_True by done.
  rewrite (findFirst_id db T Hnd HT), Hsch.
  set (db' := mkDB _ _ _). exists db'. split; [done|].
  assert (Hgone : ∀ t, t ∈ todos db' → Todo.id t ≠ Todo.id T).
  { intros t Ht. subst db'. cbn in Ht. by apply list_elem_of_filter in Ht as [? _]. }
  assert (Hnone : ∀ w, (∀ row, TodoWhere.matches w row = true → Todo.id row = Todo.id T) →
                       todo_findFirst db' w = None).
  { intros w Hw. unfold todo_findFirst, todo_findMany. apply head_filter_None.
    intros t Ht Hm. by apply (Hgone t Ht), Hw. }
  split; [|split; [|split]].
  - intros U. unfold get_todo. rewrite Hnone; [done|].
    intros row Hm. by apply matches_id_access in Hm as [? _].
  - intros U. unfold delete_todo. rewrite Hnone; [done|].
    intros row Hm. by apply matches_id_creator in Hm as [? _].
  - intros U q Hin. apply list_rows_elem in Hin as [_ Hin]. by apply (Hgone T Hin).
  - intros U t Ht Hne.
    assert (Hidne : Todo.id t ≠ Todo.id T).
    { intros Hid. apply Hne. by apply (NoDup_fmap_eq Todo.id (todos db)). }
    assert (Hnd' : NoDup (Todo.id <$> todos db')).
    { subst db'. cbn. apply (sublist_NoDup _ (Todo.id <$> todos db)); [done|].
      apply fmap_sublist, sublist_filter. }
    assert (Ht' : t ∈ todos db').
    { subst db'. cbn. by apply list_elem_of_filter. }
    unfold get_todo.
    rewrite (findFirst_id_access db' U t Hnd' Ht'), (findFirst_id_access db U t Hnd Ht).
    destruct (canAccess U t); [|done]. do 2 f_equal.
    unfold include, user_findUnique. subst db'. cbn. f_equal.
    rewrite list_filter_filter. apply list_filter_iff. intros f. split; [tauto|].
    intros Hf. split; [done|]. congruence.
Qed.

Lemma delete_then_gone_witness :
  ∃ db',
    delete_todo Sample.cascading Sample.db Sample.alice (Todo.id Sample.milk)
      = (json 200 (b_message "Todo deleted successfully"), db') ∧
    (∀ U, get_todo db' U (Todo.id Sample.milk)
          = json 404 (b_error "Todo not found or access denied")) ∧
    (∀ U, delete_todo Sample.cascading db' U (Todo.id Sample.milk)
          = (json 404 (b_error "Todo not found or access denied"), db')) ∧
    (∀ U q, Sample.milk ∉ list_rows db' U q) ∧
    (∀ U t, t ∈ todos Sample.db → t ≠ Sample.milk →
            get_todo db' U (Todo.id t) = get_todo Sample.db U (Todo.id t)).
Proof.
  apply (delete_then_gone Sample.cascading Sample.db Sample.alice Sample.milk).
  - by_compute.
  - by_compute.
  - reflexivity.
  - reflexivity.
Defined.

(** ** An accepted upload *)

Lemma multer_array_accepts limit parts :
  ∀ left disk uploaded,
    (length parts ≤ left)%nat → Forall (valid_part limit) parts →
    multer_array limit left disk uploaded parts
    = (written disk parts, inr (uploaded ++ (stored <$> parts))%list).
Proof.
  induction parts as [|p rest IH]; intros left disk uploaded Hlen Hvalid; cbn.
  - by rewrite app_nil_r.
  - apply Forall_cons in Hvalid as [(Hfield & Hfilter & Hsize) Hrest].
    destruct left as [|left']; [cbn in Hlen; lia|].
    rewrite decide_False by (by intros []). rewrite Hfilter. cbn.
    rewrite decide_False by lia.
    rewrite IH; [|cbn in Hlen; lia|done]. by rewrite <- app_assoc.
Qed.

Lemma written_other disk parts name :
  name ∉ storage_filename <$> parts → written disk parts !! name = disk !! name.
Proof.
  revert disk. induction parts as [|p rest IH]; intros disk Hname; [done|].
  rewrite fmap_cons, not_elem_of_cons in Hname. destruct Hname as [Hne Hrest].
  cbn. rewrite IH by done. by apply lookup_insert_ne.
Qed.

Lemma written_lookup disk parts p :
  NoDup (storage_filename <$> parts) → p ∈ parts →
  written disk parts !! storage_filename p = Some (p_content p).
Proof.
  revert disk. induction parts as [|q rest IH]; intros disk Hnd Hp.
  - by apply elem_of_nil in Hp.
  - rewrite fmap_cons in Hnd. apply NoDup_cons in Hnd as [Hq Hnd]. cbn.
    apply elem_of_cons in Hp as [->|Hp]; [|by apply IH].
    rewrite written_other by done. apply lookup_insert_eq.
Qed.






(** X16. The upload middleware writes before the route checks access:
    when a caller without access to the todo uploads a batch of at most
    five parts, each sent under the field [files], passed by the file
    filter and smaller than the size limit, the route answers the
    merged 404 and creates no file row, and yet the content of every
    part is in the upload directory. *)
Theorem upload_without_access_leaves_objects MAX_FILE_SIZE env db disk user todoId parts :
  (∀ t, t ∈ todos db → Todo.id t = todoId → canAccess user t = false) →
  (length parts ≤ 5)%nat →
  Forall (valid_part (fileSize MAX_FILE_SIZE)) parts →
  NoDup (storage_filename <$> parts) →
  ∃ disk',
    upload_files MAX_FILE_SIZE env db disk user todoId parts
      = (json 404 (b_error "Todo not found or access denied"), db, disk') ∧
    (∀ p, p ∈ parts → disk' !! storage_filename p = Some (p_content p)) ∧
    (∀ name, name ∉ storage_filename <$> parts → disk' !! name = disk !! name).
Proof.
  intros Hno Hlen Hvalid Hnames. unfold upload_files.
  rewrite (multer_array_accepts _ parts 5%nat disk [] Hlen Hvalid). cbn -[imap].
  rewrite findFirst_access_None.
  - eexists. split; [done|]. split.
    + intros p Hp. by apply written_lookup.
    + intros name Hname. by apply written_other.
  - intros (t & Ht & Hid & Hacc). rewrite (Hno t Ht Hid) in Hacc. discriminate.
Qed.

Lemma upload_without_access_leaves_objects_witness :
  ∃ disk',
    upload_files (Some 10) Sample.env Sample.db ∅ Sample.carol "t1" Sample.batch
      = (json 404 (b_error "Todo not found or access denied"), Sample.db, disk') ∧
    (∀ p, p ∈ Sample.batch → disk' !! storage_filename p = Some (p_content p)) ∧
    (∀ name, name ∉ storage_filename <$> Sample.batch →
             disk' !! name = (∅ : Disk) !! name).
Proof.
  apply (upload_without_access_leaves_objects (Some 10) Sample.env Sample.db ∅
           Sample.carol "t1" Sample.batch).
  - apply (proj1 (Forall_forall
             (λ t, Todo.id t = "t1" → canAccess Sample.carol t = false)
             (todos Sample.db))).
    by_compute.
  - vm_compute. lia.
  - by_compute.
  - by_compute.
Defined.

Lemma multer_array_too_many limit parts :
  ∀ left disk uploaded,
    (left < length parts)%nat →
    ∃ disk' err, multer_array limit left disk uploaded parts = (disk', inl err).
Proof.
  induction parts as [|p rest IH]; intros left disk uploaded Hlen; cbn in *; [lia|].
  destruct left as [|left']; [by eexists _, _|].
  case_decide; [by eexists _, _|].
  destruct (fileFilter _ _); cbn; [|by eexists _, _].
  case_decide; [by eexists _, _|]. apply IH. lia.
Qed.

(** X17. A request with more than five file parts is never stored: it
    ends in an error before the route handler runs, no file row is
    created, and the upload directory holds nothing it did not hold
    before. *)
Theorem upload_over_five_rejected MAX_FILE_SIZE env db disk user todoId parts :
  (5 < length parts)%nat →
  ∃ err disk',
    upload_files MAX_FILE_SIZE env db disk user todoId parts = (next err, db, disk') ∧
    disk' ⊆ disk.
Proof.
  intros Hlen. unfold upload_files.
  destruct (multer_array_too_many (fileSize MAX_FILE_SIZE) parts 5%nat disk [] Hlen)
    as (disk' & err & Hm).
  rewrite Hm. exists err, disk'. split; [done|].
  by apply (multer_array_error_subseteq (fileSize MAX_FILE_SIZE) parts 5%nat disk []
              disk disk' err).
Qed.

Lemma upload_over_five_rejected_witness :
  ∃ err disk',
    upload_files (Some 10) Sample.env Sample.db ∅ Sample.bob "t1"
        (Sample.batch ++ Sample.batch)%list
      = (next err, Sample.db, disk') ∧
    disk' ⊆ ∅.
Proof.
  apply (upload_over_five_rejected (Some 10) Sample.env Sample.db ∅ Sample.bob "t1"
           (Sample.batch ++ Sample.batch)%list).
  vm_compute. lia.
Defined.

(** ** The users router *)


Lemma user_update_users db id data db' :
  user_update db id data = Some db' →
  db' = mkDB ((λ u, if decide (User.id u = id) then UserData.apply data u else u)
                <$> users db) (todos db) (files db).
Proof.
  unfold user_update. destruct (user_findUnique db id); [|done].
  case_decide; [done|]. by intros [= <-].
Qed.




(** X19. A profile update never changes the role, status, picture or id
    of any user, nor any row but the one it names, nor any todo or
    file; a name or email that is absent or empty leaves the field as
    it is; and a caller who is neither an administrator nor the user
    named gets a 403 and changes nothing. *)
Theorem update_user_keeps_role_and_status db caller id name email :
  todos (update_user db caller id name email).2 = todos db ∧
  files (update_user db caller id name email).2 = files db ∧
  Forall2 (profile_updated id name email)
    (users db) (users (update_user db caller id name email).2) ∧
  (User.role caller ≠ ADMIN → User.id caller ≠ id →
     update_user db caller id name email = (refused 403 "Access denied", db)).
Proof.
  assert (Hsame : Forall2 (profile_updated id name email) (users db) (users db)).
  { apply Forall_Forall2_diag, Forall_forall. intros u _. by repeat split. }
  unfold update_user. destruct (decide (_ ∧ _)) as [Hdenied|Hok].
  { repeat split; try done. }
  split; [|split; [|split; [|tauto]]].
  - destruct (user_update db id _) as [db'|] eqn:Hupd; [|done].
    apply user_update_users in Hupd as ->. by destruct (user_findUnique _ id).
  - destruct (user_update db id _) as [db'|] eqn:Hupd; [|done].
    apply user_update_users in Hupd as ->. by destruct (user_findUnique _ id).
  - destruct (user_update db id _) as [db'|] eqn:Hupd; [|done].
    apply user_update_users in Hupd as ->.
    destruct (user_findUnique _ id); [|done]. cbn.
    apply Forall2_fmap_r, Forall_Forall2_diag, Forall_forall. intros u _.
    unfold compose. case_decide; [|by repeat split].
    unfold profile_updated, UserData.apply. cbn.
    repeat split; try done.
    + by intros ->.
    + by intros ->.
Qed.

(** X20. GET /users/:id serves a user row to administrators and to the
    user it describes, and to nobody else: any other caller gets a 403
    for every id, whether or not a user has it. *)
Theorem get_user_admin_or_self db caller u :
  NoDup (User.id <$> users db) → u ∈ users db →
  (get_user db caller (User.id u) = sent 200 u ↔
     User.role caller = ADMIN ∨ User.id caller = User.id u) ∧
  (User.role caller ≠ ADMIN →
     ∀ id, id ≠ User.id caller → get_user db caller id = refused 403 "Access denied").
Proof.
  intros Hnd Hu. unfold get_user. split.
  - rewrite (user_findUnique_unique db u Hnd Hu).
    destruct (decide (_ ∧ _)) as [[Hrole Hid]|Hok].
    + split; [done|]. intros [?|?]; done.
    + split; [|done]. intros _. destruct (User.role caller); [|by left].
      right. destruct (decide (User.id caller = User.id u)); [done|].
      destruct Hok. by split.
  - intros Hrole id Hid. rewrite decide_True; [done|]. split; [done|]. congruence.
Qed.

Lemma get_user_admin_or_self_witness :
  (get_user Sample.db Sample.bob (User.id Sample.alice) = sent 200 Sample.alice ↔
     User.role Sample.bob = ADMIN ∨ User.id Sample.bob = User.id Sample.alice) ∧
  (User.role Sample.bob ≠ ADMIN →
     ∀ id, id ≠ User.id Sample.bob →
           get_user Sample.db Sample.bob id = refused 403 "Access denied").
Proof.
  apply (get_user_admin_or_self Sample.db Sample.bob Sample.alice).
  - by_compute.
  - by_compute.
Defined.
